(** * react-form-analytics: the analytics reducer and the export controller

    A shallow embedding of [utils/analyticsUtils.ts] (the action type, the
    initial-state constructors and [analyticsReducer]) and of the exporting
    part of [contexts/AnalyticsContext.tsx] ([exportAnalytics], the unload
    listener and the effect that owns the [formAlreadySubmitted] ref).

    Modelling conventions.
    - A JavaScript object used as [Record<string, T>] is a [gmap string T]:
      own-property lookup is [!!], a spread followed by a computed key is an
      insert.  Identifiers are taken not to be names that every object
      inherits from [Object.prototype].
    - [number] is [Z]: every number the reducer handles is a millisecond
      time stamp, a difference of two of them, or a counter.
    - [number | null] is [option Z].
    - [Date.now()] and [uuidv4()] are read from a [Host] record handed to
      each call, so the reducer stays a function.
    - A call either returns or throws; [Outcome] records which. *)

From stdpp Require Import gmap strings list fin_maps pretty.

Open Scope Z_scope.
Open Scope string_scope.

(** ** types.ts *)

Inductive ExportReason : Type :=
  | submit
  | tabClose
  | idle.

Record FieldAnalytics : Type := mkField {
  id : string;
  validationErrors : list string
}.

Record TabAnalytics : Type := mkTab {
  visits : Z;
  totalTimeSpent : Z;
  lastVisitTime : option Z;
  lastVisitedAt : option Z
}.

Record FormAnalytics : Type := mkForm {
  sessionId : string;
  formStartTime : Z;
  formEndTime : option Z;
  formCompletionTime : option Z;
  fields : gmap string FieldAnalytics;
  tabs : gmap string TabAnalytics;
  formSubmitted : bool;
  formAbandoned : bool;
  validationErrorCount : Z;
  exportReason : option ExportReason
}.

#[global] Instance ExportReason_eq_dec : EqDecision ExportReason.
Proof. solve_decision. Defined.

#[global] Instance FieldAnalytics_eq_dec : EqDecision FieldAnalytics.
Proof. solve_decision. Defined.

#[global] Instance TabAnalytics_eq_dec : EqDecision TabAnalytics.
Proof. solve_decision. Defined.

(** ** The host environment and the two ways a call can end *)

Record Host : Type := mkHost {
  date_now : Z;
  uuidv4 : string
}.

Inductive JsError : Type :=
  | TypeError.

Inductive Outcome (A : Type) : Type :=
  | Returns (a : A)
  | Throws (e : JsError).

Arguments Returns {A} a.
Arguments Throws {A} e.

Definition bindO {A B : Type} (o : Outcome A) (k : A → Outcome B) : Outcome B :=
  match o with
  | Returns a => k a
  | Throws e => Throws e
  end.

(** ** analyticsUtils.ts *)

Inductive AnalyticsAction : Type :=
  | VALIDATION_ERROR (field : string) (error : string)
  | TAB_CHANGE (tab : string)
  | FORM_SUBMIT
  | FORM_ABANDON
  | RESET_ANALYTICS
  | FINALIZE_TAB_TIMES
  | SET_EXPORT_REASON (reason : option ExportReason)
  | OTHER_ACTION.

Definition createInitialFieldAnalytics (fieldId : string) : FieldAnalytics :=
  {| id := fieldId; validationErrors := [] |}.

Definition createInitialTabAnalytics : TabAnalytics :=
  {| visits := 0; totalTimeSpent := 0; lastVisitTime := None;
     lastVisitedAt := None |}.

(** [xs.forEach(k => obj[k] = mk(k))] on an object that starts as [obj]. *)
Definition assignEach {T : Type} (mk : string → T) (xs : list string)
    (obj : gmap string T) : gmap string T :=
  foldl (λ acc k, <[k := mk k]> acc) obj xs.

Definition createInitialAnalyticsState (h : Host) (formFields : list string)
    (tabIds : option (list string)) : FormAnalytics :=
  let fieldsAnalytics := assignEach createInitialFieldAnalytics formFields ∅ in
  let tabsAnalytics :=
    match tabIds with
    | Some ids => assignEach (λ _, createInitialTabAnalytics) ids ∅
    | None => ∅
    end in
  {| sessionId := uuidv4 h;
     formStartTime := date_now h;
     formEndTime := None;
     formCompletionTime := None;
     fields := fieldsAnalytics;
     tabs := tabsAnalytics;
     formSubmitted := false;
     formAbandoned := false;
     validationErrorCount := 0;
     exportReason := None |}.

(** [Object.keys(obj)]. *)
Definition keys {T : Type} (obj : gmap string T) : list string :=
  (map_to_list obj).*1.

(** The body that the reducer runs for a tab whose [lastVisitTime] is not
    [null]: the elapsed time goes into [totalTimeSpent] and
    [lastVisitTime] becomes [null]. *)
Definition finalizeTab (now : Z) (t : TabAnalytics) : TabAnalytics :=
  match lastVisitTime t with
  | Some since =>
      {| visits := visits t;
         totalTimeSpent := totalTimeSpent t + (now - since);
         lastVisitTime := None;
         lastVisitedAt := lastVisitedAt t |}
  | None => t
  end.

(** The [forEach] of FINALIZE_TAB_TIMES, FORM_SUBMIT and FORM_ABANDON. *)
Definition finalizeAll (now : Z) (ts : gmap string TabAnalytics)
    : gmap string TabAnalytics :=
  finalizeTab now <$> ts.

(** The [forEach] of TAB_CHANGE, which leaves the target tab alone. *)
Definition finalizeOthers (now : Z) (target : string)
    (ts : gmap string TabAnalytics) : gmap string TabAnalytics :=
  map_imap (λ tab t,
    Some (if decide (tab ≠ target) then finalizeTab now t else t)) ts.

(** [Object.values(fields).reduce((count, f) => count + f.validationErrors.length, 0)]. *)
Definition totalErrorCount (fs : gmap string FieldAnalytics) : Z :=
  map_fold (λ _ field count, count + Z.of_nat (length (validationErrors field)))
    0 fs.

Definition analyticsReducer (h : Host) (state : FormAnalytics)
    (action : AnalyticsAction) : Outcome FormAnalytics :=
  let now := date_now h in
  match action with
  | VALIDATION_ERROR field error =>
      match fields state !! field with
      | None => Throws TypeError
      | Some f =>
          let isExistingError := bool_decide (error ∈ validationErrors f) in
          Returns
            {| sessionId := sessionId state;
               formStartTime := formStartTime state;
               formEndTime := formEndTime state;
               formCompletionTime := formCompletionTime state;
               fields :=
                 <[field :=
                    {| id := id f;
                       validationErrors :=
                         if isExistingError then validationErrors f
                         else validationErrors f ++ [error] |}]>
                   (fields state);
               tabs := tabs state;
               formSubmitted := formSubmitted state;
               formAbandoned := formAbandoned state;
               validationErrorCount :=
                 if isExistingError then validationErrorCount state
                 else validationErrorCount state + 1;
               exportReason := exportReason state |}
      end
  | TAB_CHANGE tab =>
      let updatedTabs := finalizeOthers now tab (tabs state) in
      let updatedTabs :=
        match updatedTabs !! tab with
        | None => <[tab := createInitialTabAnalytics]> updatedTabs
        | Some _ => updatedTabs
        end in
      let updatedTabs :=
        match updatedTabs !! tab with
        | None => updatedTabs
        | Some cur =>
            <[tab :=
               {| visits := visits cur + 1;
                  totalTimeSpent := totalTimeSpent cur;
                  lastVisitTime := Some now;
                  lastVisitedAt := Some now |}]> updatedTabs
        end in
      Returns
        {| sessionId := sessionId state;
           formStartTime := formStartTime state;
           formEndTime := formEndTime state;
           formCompletionTime := formCompletionTime state;
           fields := fields state;
           tabs := updatedTabs;
           formSubmitted := formSubmitted state;
           formAbandoned := formAbandoned state;
           validationErrorCount := validationErrorCount state;
           exportReason := exportReason state |}
  | FINALIZE_TAB_TIMES =>
      Returns
        {| sessionId := sessionId state;
           formStartTime := formStartTime state;
           formEndTime := formEndTime state;
           formCompletionTime := formCompletionTime state;
           fields := fields state;
           tabs := finalizeAll now (tabs state);
           formSubmitted := formSubmitted state;
           formAbandoned := formAbandoned state;
           validationErrorCount := validationErrorCount state;
           exportReason := exportReason state |}
  | FORM_SUBMIT =>
      Returns
        {| sessionId := sessionId state;
           formStartTime := formStartTime state;
           formEndTime := Some now;
           formCompletionTime := Some (now - formStartTime state);
           fields := fields state;
           tabs := finalizeAll now (tabs state);
           formSubmitted := true;
           formAbandoned := false;
           validationErrorCount := totalErrorCount (fields state);
           exportReason := Some submit |}
  | FORM_ABANDON =>
      Returns
        {| sessionId := sessionId state;
           formStartTime := formStartTime state;
           formEndTime := Some now;
           formCompletionTime := formCompletionTime state;
           fields := fields state;
           tabs := finalizeAll now (tabs state);
           formSubmitted := formSubmitted state;
           formAbandoned := true;
           validationErrorCount := validationErrorCount state;
           exportReason := exportReason state |}
  | SET_EXPORT_REASON reason =>
      Returns
        {| sessionId := sessionId state;
           formStartTime := formStartTime state;
           formEndTime := formEndTime state;
           formCompletionTime := formCompletionTime state;
           fields := fields state;
           tabs := tabs state;
           formSubmitted := formSubmitted state;
           formAbandoned := formAbandoned state;
           validationErrorCount := validationErrorCount state;
           exportReason := reason |}
  | RESET_ANALYTICS =>
      Returns
        (createInitialAnalyticsState h (keys (fields state))
           (Some (keys (tabs state))))
  | OTHER_ACTION => Returns state
  end.

(** A run of the store: the events are reduced one after the other, each
    with the host readings of its own call; a throw ends the run. *)
Fixpoint runEvents (evs : list (Host * AnalyticsAction)) (s : FormAnalytics)
    : Outcome FormAnalytics :=
  match evs with
  | [] => Returns s
  | (h, a) :: rest => bindO (analyticsReducer h s a) (runEvents rest)
  end.

(** ** contexts/AnalyticsContext.tsx: the exporting part of the provider *)

Definition normalizedTabs (tabs : option (list string)) : list string :=
  match tabs with
  | None => ["default"]
  | Some [] => ["default"]
  | Some ts => ts
  end.

Inductive Channel : Type :=
  | AxiosPost
  | DownloadLink
  | SendBeacon.

Record Delivery : Type := mkDelivery {
  channel : Channel;
  payload : FormAnalytics
}.

(** What the provider owns: the [useReducer] store, the
    [formAlreadySubmitted] ref, and (to be able to count them) the
    records that have left the page, oldest first. *)
Record Provider : Type := mkProvider {
  analytics : FormAnalytics;
  formAlreadySubmitted : bool;
  delivered : list Delivery
}.

Definition mount (h : Host) (formFields : list string)
    (tabs : option (list string)) : Provider :=
  {| analytics :=
       createInitialAnalyticsState h formFields (Some (normalizedTabs tabs));
     formAlreadySubmitted := false;
     delivered := [] |}.

Definition dispatch (h : Host) (a : AnalyticsAction) (p : Provider)
    : Outcome Provider :=
  bindO (analyticsReducer h (analytics p) a) (λ s,
    Returns {| analytics := s;
               formAlreadySubmitted := formAlreadySubmitted p;
               delivered := delivered p |}).

Definition send (c : Channel) (body : FormAnalytics) (p : Provider) : Provider :=
  {| analytics := analytics p;
     formAlreadySubmitted := formAlreadySubmitted p;
     delivered := delivered p ++ [ {| channel := c; payload := body |} ] |}.

Definition setFormAlreadySubmitted (b : bool) (p : Provider) : Provider :=
  {| analytics := analytics p;
     formAlreadySubmitted := b;
     delivered := delivered p |}.

(** One entry of [cleanTabs]; the object literal has no [lastVisitedAt]. *)
Definition cleanTab (now : Z) (currentTab : TabAnalytics) : TabAnalytics :=
  {| visits := visits currentTab;
     totalTimeSpent :=
       match lastVisitTime currentTab with
       | Some since => totalTimeSpent currentTab + (now - since)
       | None => totalTimeSpent currentTab
       end;
     lastVisitTime := lastVisitTime currentTab;
     lastVisitedAt := None |}.

(** [completeAnalytics], built from the [analytics] value that the
    closure of [exportAnalytics] holds. *)
Definition completeAnalytics (captured : FormAnalytics) (reason : ExportReason)
    (now : Z) : FormAnalytics :=
  {| sessionId := sessionId captured;
     formStartTime := formStartTime captured;
     formEndTime := Some now;
     formCompletionTime := Some (now - formStartTime captured);
     fields := fields captured;
     tabs := cleanTab now <$> tabs captured;
     formSubmitted :=
       match reason with
       | submit => true
       | _ => formSubmitted captured
       end;
     formAbandoned :=
       match reason with
       | tabClose | idle => true
       | submit => formAbandoned captured
       end;
     validationErrorCount := validationErrorCount captured;
     exportReason := Some reason |}.

(** [exportAnalytics(reason)].  [now] is the clock read at the top of the
    call, [postOk] tells whether [axios.post] resolved, and [h] is the host
    as the reducer sees it when the queued actions are reduced.  The
    function starts with the request: nothing is tested before it.  The
    suspension at [await] is not modelled: a call runs to its end. *)
Definition exportAnalytics (captured : FormAnalytics) (reason : ExportReason)
    (now : Z) (postOk : bool) (h : Host) (p : Provider) : Outcome Provider :=
  let body := completeAnalytics captured reason now in
  if postOk then
    let p := send AxiosPost body p in
    bindO
      (match reason with
       | submit =>
           bindO (dispatch h FORM_SUBMIT p) (λ p,
             Returns (setFormAlreadySubmitted true p))
       | tabClose | idle => dispatch h FORM_ABANDON p
       end) (λ p,
    bindO (dispatch h (SET_EXPORT_REASON (Some reason)) p) (λ p,
    dispatch h FINALIZE_TAB_TIMES p))
  else
    Returns (send DownloadLink body p).

(** The first statement of the effect that depends on [analytics]. *)
Definition sessionEffect (p : Provider) : Provider :=
  if decide (sessionId (analytics p) = "") then p
  else setFormAlreadySubmitted false p.

(** The object that the [unload] listener serialises:
    [{...analytics, formAbandoned: true, exportReason: "tabClose"}]. *)
Definition unloadBody (captured : FormAnalytics) : FormAnalytics :=
  {| sessionId := sessionId captured;
     formStartTime := formStartTime captured;
     formEndTime := formEndTime captured;
     formCompletionTime := formCompletionTime captured;
     fields := fields captured;
     tabs := tabs captured;
     formSubmitted := formSubmitted captured;
     formAbandoned := true;
     validationErrorCount := validationErrorCount captured;
     exportReason := Some tabClose |}.

(** The [unload] listener, closed over [captured]. *)
Definition handleUnload (captured : FormAnalytics) (p : Provider) : Provider :=
  if negb (formAlreadySubmitted p) then send SendBeacon (unloadBody captured) p
  else p.

(** ** Derived notions used by the statements *)

(** A tab is the active one when its [lastVisitTime] is not [null]. *)
Definition activeTabs (ts : gmap string TabAnalytics) : gmap string TabAnalytics :=
  filter (λ kt, is_Some (lastVisitTime kt.2)) ts.

(** The error messages of a field as a set, and their number summed over
    the fields. *)
Definition distinctErrors (f : FieldAnalytics) : gset string :=
  list_to_set (validationErrors f).

Definition weightSum (w : FieldAnalytics → Z) (fs : gmap string FieldAnalytics) : Z :=
  map_fold (λ _ f acc, acc + w f) 0 fs.

Definition distinctTotal (fs : gmap string FieldAnalytics) : Z :=
  weightSum (λ f, Z.of_nat (size (distinctErrors f))) fs.

(** Two session records that agree on everything but [sessionId]. *)
Definition sameButSessionId (a b : FormAnalytics) : Prop :=
  formStartTime a = formStartTime b ∧
  formEndTime a = formEndTime b ∧
  formCompletionTime a = formCompletionTime b ∧
  fields a = fields b ∧
  tabs a = tabs b ∧
  formSubmitted a = formSubmitted b ∧
  formAbandoned a = formAbandoned b ∧
  validationErrorCount a = validationErrorCount b ∧
  exportReason a = exportReason b.

(** What TAB_CHANGE leaves in the slot of its target, given what the slot
    held before ([None]: the tab did not exist). *)
Definition enteredTab (now : Z) (prev : option TabAnalytics) : TabAnalytics :=
  {| visits := from_option visits 0 prev + 1;
     totalTimeSpent := from_option totalTimeSpent 0 prev;
     lastVisitTime := Some now;
     lastVisitedAt := Some now |}.

(** The invariant that the reducer keeps: no message is listed twice for a
    field, and the counter is the sum of the lengths of the lists. *)
Definition errorsLedger (s : FormAnalytics) : Prop :=
  (∀ k f, fields s !! k = Some f → NoDup (validationErrors f)) ∧
  validationErrorCount s = totalErrorCount (fields s).

(** Two session records that agree on everything but the two terminal
    flags, and two outcomes of the reducer that agree up to them. *)
Definition sameButFlags (a b : FormAnalytics) : Prop :=
  sessionId a = sessionId b ∧
  formStartTime a = formStartTime b ∧
  formEndTime a = formEndTime b ∧
  formCompletionTime a = formCompletionTime b ∧
  fields a = fields b ∧
  tabs a = tabs b ∧
  validationErrorCount a = validationErrorCount b ∧
  exportReason a = exportReason b.

Definition sameOutcomeButFlags (x y : Outcome FormAnalytics) : Prop :=
  match x, y with
  | Returns a, Returns b => sameButFlags a b
  | Throws e1, Throws e2 => e1 = e2
  | _, _ => False
  end.

Definition at_time (t : Z) : Host :=
  {| date_now := t; uuidv4 := "3f2b8c1e-5d4a-4e6f-9a7b-0c1d2e3f4a5b" |}.

(** Scenario A of the specification. *)
Definition scenarioA (uuid : string) (formFields : list string)
    : Outcome FormAnalytics :=
  runEvents
    [ (mkHost 0 uuid, TAB_CHANGE "personal");
      (mkHost 5000 uuid, TAB_CHANGE "payment");
      (mkHost 12000 uuid, TAB_CHANGE "experience");
      (mkHost 20000 uuid, FORM_SUBMIT) ]
    (createInitialAnalyticsState (mkHost 0 uuid) formFields
       (Some ["personal"; "payment"; "experience"])).

(** [trackFormSubmit(redirectUrl)]: the export with reason [submit], then
    [navigate].  The second component is the path navigated to; [None] is
    the [catch] branch, which does not navigate. *)
Definition trackFormSubmit (captured : FormAnalytics) (redirectUrl : string)
    (now : Z) (postOk : bool) (h : Host) (p : Provider)
    : Provider * option string :=
  match exportAnalytics captured submit now postOk h p with
  | Returns p' => (p', Some ("/" ++ redirectUrl))
  | Throws _ => (p, None)
  end.

(** ** analyticsUtils.ts: the field names of a schema *)

(** A value of type [any], as far as [getAnalyticsFormFields] can tell
    values apart.  An object is given by what reading a property yields
    ([get], for own and inherited properties alike; a name that is not in
    it reads as [undefined]) and by what [Object.keys] returns
    ([ownKeys]).  Numbers are integers; functions and symbols are not
    covered.  A character of a string stands for one code unit. *)
#[warnings="-register-all"] Inductive JsValue : Type :=
  | JsUndefined
  | JsNull
  | JsBoolean (b : bool)
  | JsNumber (n : Z)
  | JsString (s : string)
  | JsObject (get : gmap string JsValue) (ownKeys : list string).

(** The value as a condition. *)
Definition truthy (v : JsValue) : bool :=
  match v with
  | JsUndefined | JsNull => false
  | JsBoolean b => b
  | JsNumber n => bool_decide (n ≠ 0)
  | JsString s => bool_decide (s ≠ "")
  | JsObject _ _ => true
  end.

(** [v?.name], for the names that [getAnalyticsFormFields] reads ([shape],
    [_def], [schema]): no primitive value has such a property. *)
Definition optGet (v : JsValue) (name : string) : JsValue :=
  match v with
  | JsObject get _ => default JsUndefined (get !! name)
  | _ => JsUndefined
  end.

(** [Object.keys(v)]: the indices for a string, nothing for a number or a
    boolean, a TypeError for [undefined] and [null]. *)
Definition objectKeys (v : JsValue) : Outcome (list string) :=
  match v with
  | JsUndefined | JsNull => Throws TypeError
  | JsBoolean _ | JsNumber _ => Returns []
  | JsString s => Returns ((λ i : nat, pretty i) <$> seq 0 (String.length s))
  | JsObject _ ownKeys => Returns ownKeys
  end.

(** [typeof v === "object" && v !== null]. *)
Definition isNonNullObject (v : JsValue) : bool :=
  match v with
  | JsObject _ _ => true
  | _ => false
  end.

Definition getAnalyticsFormFields (formSchema : JsValue) : Outcome (list string) :=
  if truthy (optGet formSchema "shape") then
    objectKeys (optGet formSchema "shape")
  else if truthy (optGet (optGet (optGet (optGet formSchema "_def") "schema")
                            "_def") "shape") then
    objectKeys (optGet (optGet (optGet (optGet formSchema "_def") "schema")
                          "_def") "shape")
  else if isNonNullObject formSchema then
    objectKeys formSchema
  else
    Returns [].

(** ** Timers *)

(** What a timer of the page does when it expires: the callback that
    [resetIdleTimer] schedules, or the callback that the tracked field
    [name] schedules. *)
Inductive TimerTask : Type :=
  | IdleExpiry
  | ConfirmError (name : string).

#[global] Instance TimerTask_eq_dec : EqDecision TimerTask.
Proof. solve_decision. Defined.

(** The timers of the window: the handle that the next [setTimeout] will
    return (handles are positive and are not handed out twice), and for
    each pending handle the time from which it may fire, with its task. *)
Record Timers : Type := mkTimers {
  nextHandle : positive;
  scheduled : gmap positive (Z * TimerTask)
}.

Definition setTimeout (task : TimerTask) (delay : Z) (now : Z) (tm : Timers)
    : positive * Timers :=
  (nextHandle tm,
   {| nextHandle := (nextHandle tm + 1)%positive;
      scheduled := <[nextHandle tm := (now + delay, task)]> (scheduled tm) |}).

Definition clearTimeout (handle : positive) (tm : Timers) : Timers :=
  {| nextHandle := nextHandle tm;
     scheduled := delete handle (scheduled tm) |}.

(** The pending timers that carry a given task. *)
Definition tasksOf (task : TimerTask) (tm : Timers) : gmap positive (Z * TimerTask) :=
  filter (λ e, e.2.2 = task) (scheduled tm).

(** ** AnalyticsContext.tsx: the idle timer and the mount effect *)

Definition IDLE_TIMEOUT : Z := 10 * 60 * 1000.

(** The provider with its idle timer.  [firstRender] is the [analytics] of
    the first render: [resetIdleTimer] is memoised with no dependencies, so
    the [exportAnalytics] that its timer calls is the one of the first
    render, closed over that value. *)
Record Scope : Type := mkScope {
  provider : Provider;
  firstRender : FormAnalytics;
  idleTimerRef : option positive;
  timers : Timers
}.

Definition mountScope (h : Host) (formFields : list string)
    (tabs : option (list string)) (tm : Timers) : Scope :=
  {| provider := mount h formFields tabs;
     firstRender := analytics (mount h formFields tabs);
     idleTimerRef := None;
     timers := tm |}.

Definition resetIdleTimer (now : Z) (sc : Scope) : Scope :=
  let tm :=
    match idleTimerRef sc with
    | Some handle => clearTimeout handle (timers sc)
    | None => timers sc
    end in
  let scheduledNow := setTimeout IdleExpiry IDLE_TIMEOUT now tm in
  {| provider := provider sc;
     firstRender := firstRender sc;
     idleTimerRef := Some scheduledNow.1;
     timers := scheduledNow.2 |}.

Definition withProvider (sc : Scope) (p : Provider) : Scope :=
  {| provider := p;
     firstRender := firstRender sc;
     idleTimerRef := idleTimerRef sc;
     timers := timers sc |}.


(** The callback of the idle timer. *)
Definition idleExpired (now : Z) (postOk : bool) (h : Host) (sc : Scope)
    : Outcome Scope :=
  bindO (exportAnalytics (firstRender sc) idle now postOk h (provider sc)) (λ p,
    Returns (withProvider sc p)).

(** What happens to a mounted provider: user activity (which is
    [resetIdleTimer]), an action dispatched through one of the [track...]
    functions, or an [exportAnalytics] called through the context with the
    current [analytics]. *)
Inductive ScopeEvent : Type :=
  | Activity (now : Z)
  | Dispatched (h : Host) (a : AnalyticsAction)
  | Exported (reason : ExportReason) (now : Z) (postOk : bool) (h : Host).

Definition scopeStep (ev : ScopeEvent) (sc : Scope) : Outcome Scope :=
  match ev with
  | Activity now => Returns (resetIdleTimer now sc)
  | Dispatched h a =>
      bindO (dispatch h a (provider sc)) (λ p, Returns (withProvider sc p))
  | Exported reason now postOk h =>
      bindO (exportAnalytics (analytics (provider sc)) reason now postOk h
               (provider sc)) (λ p,
        Returns (withProvider sc p))
  end.

Fixpoint runScope (evs : list ScopeEvent) (sc : Scope) : Outcome Scope :=
  match evs with
  | [] => Returns sc
  | ev :: rest => bindO (scopeStep ev sc) (runScope rest)
  end.

(** ** TrackedFormField.tsx: the confirmation timer of a field *)

Definition ERROR_PERSISTENCE_THRESHOLD : Z := 60000.

(** The body of the effect of the field [name].  [errors] is
    [form.formState.errors], as the message of each name that has an error;
    [ref] is [errorTimerRef.current].  The result is the new value of the
    ref with the timers. *)
Definition fieldEffect (name : string) (errors : gmap string string) (now : Z)
    (ref : option positive) (tm : Timers) : option positive * Timers :=
  let tm :=
    match ref with
    | Some handle => clearTimeout handle tm
    | None => tm
    end in
  match errors !! name with
  | Some _ =>
      let scheduledNow :=
        setTimeout (ConfirmError name) ERROR_PERSISTENCE_THRESHOLD now tm in
      (Some scheduledNow.1, scheduledNow.2)
  | None => (None, tm)
  end.

(** The cleanup that the effect returns; the ref keeps its value. *)
Definition fieldEffectCleanup (ref : option positive) (tm : Timers) : Timers :=
  match ref with
  | Some handle => clearTimeout handle tm
  | None => tm
  end.

(** A change of the dependencies: the cleanup of the last run, then the
    body. *)
Definition fieldEffectRerun (name : string) (errors : gmap string string)
    (now : Z) (ref : option positive) (tm : Timers) : option positive * Timers :=
  fieldEffect name errors now ref (fieldEffectCleanup ref tm).

(** The callback of the timer: what it dispatches, given the errors of the
    form when it runs. *)
Definition confirmError (name : string) (errors : gmap string string)
    : option AnalyticsAction :=
  match errors !! name with
  | Some message => Some (VALIDATION_ERROR name message)
  | None => None
  end.

(** A component owns the timers of its task: handles are below the next one
    to be handed out, every pending timer of the task is the one the ref
    holds, and the ref holds no timer of another task. *)
Definition slotOk (task : TimerTask) (ref : option positive) (tm : Timers) : Prop :=
  (∀ handle, is_Some (scheduled tm !! handle) → (handle < nextHandle tm)%positive) ∧
  (∀ handle due, scheduled tm !! handle = Some (due, task) → ref = Some handle) ∧
  (∀ handle due task',
     ref = Some handle → scheduled tm !! handle = Some (due, task') → task' = task).

(** ** Measures on the tabs and on runs *)

#[global] Instance AnalyticsAction_eq_dec : EqDecision AnalyticsAction.
Proof. solve_decision. Defined.

(** The sum of a weight over the values of an object. *)
Definition mapSum {A : Type} (w : A → Z) (m : gmap string A) : Z :=
  map_fold (λ _ x acc, acc + w x) 0 m.

(** The time recorded so far, over all tabs. *)
Definition totalSpent (ts : gmap string TabAnalytics) : Z :=
  mapSum totalTimeSpent ts.

(** The time a tab has been active at [now] without it being recorded. *)
Definition pendingOf (now : Z) (t : TabAnalytics) : Z :=
  match lastVisitTime t with
  | Some since => now - since
  | None => 0
  end.

Definition pendingAt (now : Z) (ts : gmap string TabAnalytics) : Z :=
  mapSum (pendingOf now) ts.

(** [visits] of a tab, 0 for a tab that does not exist. *)
Definition visitsOf (tab : string) (ts : gmap string TabAnalytics) : Z :=
  from_option visits 0 (ts !! tab).

(** The number of TAB_CHANGE events for [tab] in a run. *)
Definition tabChangesTo (tab : string) (evs : list (Host * AnalyticsAction)) : nat :=
  length (filter (λ e, e.2 = TAB_CHANGE tab) evs).

(** A run made of TAB_CHANGE events only, given as (host, target). *)
Definition tabChanges (steps : list (Host * string)) : list (Host * AnalyticsAction) :=
  (λ e, (e.1, TAB_CHANGE e.2)) <$> steps.

(** No target is the target of the event just before it. *)
Fixpoint noReselect (targets : list string) : bool :=
  match targets with
  | a :: (b :: _) as rest => bool_decide (a ≠ b) && noReselect rest
  | _ => true
  end.

(** The tab that an action asks for, as a set: empty unless the action is
    TAB_CHANGE. *)
Definition tabRequested (a : AnalyticsAction) : gset string :=
  match a with
  | TAB_CHANGE tab => {[ tab ]}
  | _ => ∅
  end.

(** Closing an equation between a closed run of the model and its value
    (possibly still to be determined) by evaluation. *)
Ltac by_eval :=
  lazymatch goal with
  | |- ?lhs = ?rhs =>
      first
        [ has_evar rhs;
          let v := eval vm_compute in lhs in
          unify rhs v; vm_cast_no_check (@eq_refl _ v)
        | vm_compute; reflexivity ]
  end.

(** * Lemmas on the building blocks *)

Lemma lookup_finalizeAll now ts k :
  finalizeAll now ts !! k = finalizeTab now <$> ts !! k.
Proof. unfold finalizeAll. apply lookup_fmap. Qed.

Lemma lookup_finalizeOthers now target ts k :
  finalizeOthers now target ts !! k =
  (λ t, if decide (k ≠ target) then finalizeTab now t else t) <$> ts !! k.
Proof.
  unfold finalizeOthers. rewrite map_lookup_imap.
  destruct (ts !! k); reflexivity.
Qed.

Lemma finalizeTab_inactive now t : lastVisitTime (finalizeTab now t) = None.
Proof. unfold finalizeTab. destruct (lastVisitTime t) eqn:E; [reflexivity | exact E]. Qed.

Lemma lookup_assignEach {T : Type} (mk : string → T) xs obj k :
  assignEach mk xs obj !! k =
  if decide (k ∈ xs) then Some (mk k) else obj !! k.
Proof.
  unfold assignEach. revert obj.
  induction xs as [|x xs IH]; intros obj; simpl.
  - destruct (decide (k ∈ [])) as [H|_]; [by apply elem_of_nil in H | done].
  - rewrite IH.
    destruct (decide (k ∈ xs)) as [Hin|Hout];
      destruct (decide (k ∈ x :: xs)) as [Hin'|Hout']; try done.
    + exfalso. apply Hout'. by right.
    + apply elem_of_cons in Hin' as [->|Hin']; [|done].
      by rewrite lookup_insert_eq.
    + rewrite lookup_insert_ne; [done|].
      intros ->. apply Hout'. by left.
Qed.

Lemma elem_of_keys {T : Type} (obj : gmap string T) k :
  k ∈ keys obj ↔ is_Some (obj !! k).
Proof.
  unfold keys. rewrite list_elem_of_fmap. split.
  - intros [[k' v] [Heq Hin]]. simpl in Heq. subst k'.
    apply elem_of_map_to_list in Hin. by exists v.
  - intros [v Hv]. exists (k, v). split; [done|]. by apply elem_of_map_to_list.
Qed.

(** ** TAB_CHANGE *)

Lemma tab_change_spec h s tab :
  ∃ s', analyticsReducer h s (TAB_CHANGE tab) = Returns s' ∧
    fields s' = fields s ∧
    validationErrorCount s' = validationErrorCount s ∧
    formSubmitted s' = formSubmitted s ∧
    formAbandoned s' = formAbandoned s ∧
    tabs s' !! tab = Some (enteredTab (date_now h) (tabs s !! tab)) ∧
    ∀ k, k ≠ tab → tabs s' !! k = finalizeTab (date_now h) <$> tabs s !! k.
Proof.
  eexists. split; [reflexivity|]. simpl.
  repeat split; try reflexivity.
  - rewrite lookup_finalizeOthers.
    destruct (tabs s !! tab) as [t|] eqn:Ht; simpl.
    + rewrite lookup_finalizeOthers, Ht. simpl.
      rewrite lookup_insert_eq.
      destruct (decide (tab ≠ tab)) as [Hne|_]; [by destruct Hne | done].
    + rewrite lookup_insert_eq. by rewrite lookup_insert_eq.
  - intros k Hk.
    assert (Hbase : finalizeOthers (date_now h) tab (tabs s) !! k
                    = finalizeTab (date_now h) <$> tabs s !! k).
    { rewrite lookup_finalizeOthers.
      destruct (decide (k ≠ tab)) as [_|Hn]; [done | by destruct Hn]. }
    rewrite lookup_finalizeOthers.
    destruct (tabs s !! tab) as [t|] eqn:Ht; simpl.
    + rewrite lookup_finalizeOthers, Ht. simpl.
      by rewrite lookup_insert_ne.
    + rewrite lookup_insert_eq.
      rewrite lookup_insert_ne by done. by rewrite lookup_insert_ne.
Qed.

(** ** VALIDATION_ERROR on a known field *)

Lemma validation_error_spec h s field error f :
  fields s !! field = Some f →
  ∃ s', analyticsReducer h s (VALIDATION_ERROR field error) = Returns s' ∧
    fields s' =
      <[field := {| id := id f;
                    validationErrors :=
                      if bool_decide (error ∈ validationErrors f)
                      then validationErrors f
                      else validationErrors f ++ [error] |}]> (fields s) ∧
    validationErrorCount s' =
      validationErrorCount s
      + (if bool_decide (error ∈ validationErrors f) then 0 else 1) ∧
    tabs s' = tabs s ∧
    formSubmitted s' = formSubmitted s ∧
    formAbandoned s' = formAbandoned s.
Proof.
  intros Hf. unfold analyticsReducer. rewrite Hf.
  eexists. split; [reflexivity|]. simpl.
  repeat split; try reflexivity.
  destruct (bool_decide (error ∈ validationErrors f)); lia.
Qed.

Lemma validation_error_recorded h s field error f s' :
  fields s !! field = Some f →
  analyticsReducer h s (VALIDATION_ERROR field error) = Returns s' →
  ∃ f', fields s' !! field = Some f' ∧ error ∈ validationErrors f'.
Proof.
  intros Hf Hred.
  destruct (validation_error_spec h s field error f Hf)
    as (s1 & Hred1 & Hfields & _).
  rewrite Hred in Hred1. injection Hred1 as <-.
  eexists. split.
  - rewrite Hfields. apply lookup_insert_eq.
  - simpl. case_bool_decide as Hin; [exact Hin|].
    apply elem_of_app. right. by apply list_elem_of_singleton.
Qed.

Lemma validation_error_known_is_identity h s field error f :
  fields s !! field = Some f →
  error ∈ validationErrors f →
  analyticsReducer h s (VALIDATION_ERROR field error) = Returns s.
Proof.
  intros Hf Hin. unfold analyticsReducer. rewrite Hf.
  rewrite bool_decide_eq_true_2 by exact Hin.
  destruct s as [sid st en co fs ts sub ab cnt er]. simpl in *.
  f_equal. f_equal.
  destruct f as [fid errs]. simpl. by apply insert_id.
Qed.

(** ** When the reducer throws *)

Lemma reducer_throws_iff h s a e :
  analyticsReducer h s a = Throws e ↔
  ∃ field error, a = VALIDATION_ERROR field error ∧ fields s !! field = None.
Proof.
  split.
  - destruct a; simpl; try discriminate.
    destruct (fields s !! field) eqn:Hf; [discriminate|].
    intros _. by exists field, error.
  - intros (field & error & -> & Hf). simpl. rewrite Hf. by destruct e.
Qed.

(** ** The terminal flags *)

(** The reducer never reads [formSubmitted] or [formAbandoned]: on two
    states that differ in these flags only, every action ends the same
    way, with results that again differ in these flags only. *)
Lemma reducer_ignores_flags h s1 s2 a :
  sameButFlags s1 s2 →
  sameOutcomeButFlags (analyticsReducer h s1 a) (analyticsReducer h s2 a).
Proof.
  intros (Hid & Hstart & Hend & Hcompl & Hfields & Htabs & Hcount & Hreason).
  destruct a; simpl;
    rewrite <-?Hid, <-?Hstart, <-?Hend, <-?Hcompl, <-?Hfields, <-?Htabs,
            <-?Hcount, <-?Hreason.
  - destruct (fields s1 !! field); simpl; [|reflexivity].
    repeat split; reflexivity.
  - repeat split; reflexivity.
  - repeat split; reflexivity.
  - repeat split; reflexivity.
  - repeat split; reflexivity.
  - repeat split; reflexivity.
  - repeat split; reflexivity.
  - repeat split; assumption.
Qed.

(** Every action but FORM_ABANDON keeps the two flags from being set
    together. *)
Lemma flags_exclusive_step h s a s' :
  a ≠ FORM_ABANDON →
  formSubmitted s && formAbandoned s = false →
  analyticsReducer h s a = Returns s' →
  formSubmitted s' && formAbandoned s' = false.
Proof.
  intros Ha Hs Hred. destruct a; simpl in Hred; try done;
    try (by injection Hred as <-).
  destruct (fields s !! field); [|discriminate]. by injection Hred as <-.
Qed.

(** ** Runs of the store and invariants *)

Lemma runEvents_invariant (I : FormAnalytics → Prop) :
  (∀ h s a s', I s → analyticsReducer h s a = Returns s' → I s') →
  ∀ evs s s', I s → runEvents evs s = Returns s' → I s'.
Proof.
  intros Hstep evs. induction evs as [|[h a] evs IH]; intros s s' Hs Hrun.
  - simpl in Hrun. by injection Hrun as <-.
  - simpl in Hrun.
    destruct (analyticsReducer h s a) as [s1|e] eqn:Hred; simpl in Hrun;
      [|discriminate].
    eapply IH; [|exact Hrun]. eapply Hstep; [exact Hs | exact Hred].
Qed.

(** ** Sums over the fields *)

Section field_sums.
Implicit Types (w : FieldAnalytics → Z) (fs : gmap string FieldAnalytics).

Lemma weightSum_empty w : weightSum w ∅ = 0.
Proof. unfold weightSum. apply map_fold_empty. Qed.

Lemma weightSum_insert_fresh w k f fs :
  fs !! k = None → weightSum w (<[k := f]> fs) = weightSum w fs + w f.
Proof.
  intros Hk. unfold weightSum.
  rewrite map_fold_insert_L; [done | intros; lia | exact Hk].
Qed.

Lemma weightSum_insert_known w k f f' fs :
  fs !! k = Some f →
  weightSum w (<[k := f']> fs) = weightSum w fs - w f + w f'.
Proof.
  intros Hk.
  rewrite <-(insert_delete_eq fs k f').
  rewrite weightSum_insert_fresh by apply lookup_delete_eq.
  rewrite <-(insert_delete_id fs k f Hk) at 2.
  rewrite weightSum_insert_fresh by apply lookup_delete_eq.
  lia.
Qed.

Lemma weightSum_ext w1 w2 fs :
  (∀ k f, fs !! k = Some f → w1 f = w2 f) →
  weightSum w1 fs = weightSum w2 fs.
Proof.
  induction fs as [|k f fs Hk IH] using map_ind; intros Hw.
  - by rewrite !weightSum_empty.
  - rewrite !weightSum_insert_fresh by exact Hk.
    rewrite IH.
    + f_equal. apply (Hw k). apply lookup_insert_eq.
    + intros k' f' Hk'. apply (Hw k').
      rewrite lookup_insert_ne; [exact Hk'|]. intros ->. congruence.
Qed.

Lemma weightSum_zero fs : weightSum (λ _, 0) fs = 0.
Proof.
  induction fs as [|k f fs Hk IH] using map_ind.
  - apply weightSum_empty.
  - rewrite weightSum_insert_fresh by exact Hk. lia.
Qed.

Lemma totalErrorCount_weightSum fs :
  totalErrorCount fs
  = weightSum (λ f, Z.of_nat (length (validationErrors f))) fs.
Proof. reflexivity. Qed.
End field_sums.

Lemma errorsLedger_distinct s :
  errorsLedger s → validationErrorCount s = distinctTotal (fields s).
Proof.
  intros [Hnd ->]. rewrite totalErrorCount_weightSum. unfold distinctTotal.
  apply weightSum_ext. intros k f Hk. unfold distinctErrors.
  by rewrite size_list_to_set by eauto.
Qed.

Lemma errorsLedger_initial h formFields tabIds :
  errorsLedger (createInitialAnalyticsState h formFields tabIds).
Proof.
  assert (Hval : ∀ k f,
    assignEach createInitialFieldAnalytics formFields ∅ !! k = Some f →
    validationErrors f = []).
  { intros k f. rewrite lookup_assignEach.
    destruct (decide (k ∈ formFields)); [|by rewrite lookup_empty].
    by intros [= <-]. }
  split; simpl.
  - intros k f Hk. rewrite (Hval k f Hk). constructor.
  - rewrite totalErrorCount_weightSum.
    rewrite (weightSum_ext _ (λ _, 0)); [by rewrite weightSum_zero|].
    intros k f Hk. by rewrite (Hval k f Hk).
Qed.

Lemma errorsLedger_step h s a s' :
  errorsLedger s → analyticsReducer h s a = Returns s' → errorsLedger s'.
Proof.
  intros [Hnd Hcount] Hred. destruct a; simpl in Hred.
  - destruct (fields s !! field) as [f|] eqn:Hf; [|discriminate].
    injection Hred as <-. split; simpl.
    + intros k f'. destruct (decide (k = field)) as [->|Hne].
      * rewrite lookup_insert_eq. intros [= <-]. simpl.
        case_bool_decide as Hin; [by eapply Hnd|].
        apply NoDup_app. split; [by eapply Hnd|]. split.
        -- intros x Hx Hx'. apply list_elem_of_singleton in Hx'. by subst.
        -- apply NoDup_singleton.
      * rewrite lookup_insert_ne by done. apply Hnd.
    + rewrite totalErrorCount_weightSum.
      rewrite (weightSum_insert_known _ _ f) by exact Hf.
      rewrite <-totalErrorCount_weightSum, <-Hcount. simpl.
      case_bool_decide; [lia|]. rewrite length_app. simpl. lia.
  - injection Hred as <-. by split.
  - injection Hred as <-. by split.
  - injection Hred as <-. by split.
  - injection Hred as <-. apply errorsLedger_initial.
  - injection Hred as <-. by split.
  - injection Hred as <-. by split.
  - injection Hred as <-. by split.
Qed.

(** ** The active section *)

Section active_tab.
Implicit Types (ts : gmap string TabAnalytics).

Lemma activeTabs_lookup_Some ts k t :
  activeTabs ts !! k = Some t ↔ ts !! k = Some t ∧ is_Some (lastVisitTime t).
Proof. unfold activeTabs. by rewrite map_lookup_filter_Some. Qed.

Lemma activeTabs_none ts :
  (∀ k t, ts !! k = Some t → lastVisitTime t = None) → activeTabs ts = ∅.
Proof.
  intros Hnone. apply map_empty. intros k.
  destruct (activeTabs ts !! k) as [t|] eqn:Hk; [|done].
  apply activeTabs_lookup_Some in Hk as [Hk [x Hx]].
  rewrite (Hnone k t Hk) in Hx. discriminate.
Qed.

Lemma activeTabs_finalizeAll now ts : activeTabs (finalizeAll now ts) = ∅.
Proof.
  apply activeTabs_none. intros k t. rewrite lookup_finalizeAll.
  destruct (ts !! k) as [t0|]; simpl; [|done].
  intros [= <-]. apply finalizeTab_inactive.
Qed.

Lemma activeTabs_only ts k t :
  ts !! k = Some t → is_Some (lastVisitTime t) →
  (∀ k' t', k' ≠ k → ts !! k' = Some t' → lastVisitTime t' = None) →
  activeTabs ts = {[ k := t ]}.
Proof.
  intros Hk Hact Hothers. apply map_eq. intros k'.
  destruct (decide (k' = k)) as [->|Hne].
  - rewrite lookup_singleton_eq. by apply activeTabs_lookup_Some.
  - rewrite lookup_singleton_ne by done.
    destruct (activeTabs ts !! k') as [t'|] eqn:Hk'; [|done].
    apply activeTabs_lookup_Some in Hk' as [Hk' [x Hx]].
    rewrite (Hothers k' t' Hne Hk') in Hx. discriminate.
Qed.
End active_tab.

Lemma activeTabs_initial h formFields tabIds :
  activeTabs (tabs (createInitialAnalyticsState h formFields tabIds)) = ∅.
Proof.
  apply activeTabs_none. intros k t. simpl.
  destruct tabIds as [ids|]; [|by rewrite lookup_empty].
  rewrite lookup_assignEach.
  destruct (decide (k ∈ ids)); [|by rewrite lookup_empty].
  by intros [= <-].
Qed.

Lemma activeTabs_tab_change h s tab s' :
  analyticsReducer h s (TAB_CHANGE tab) = Returns s' →
  activeTabs (tabs s') = {[ tab := enteredTab (date_now h) (tabs s !! tab) ]}.
Proof.
  intros Hred.
  destruct (tab_change_spec h s tab) as (s1 & Hred1 & _ & _ & _ & _ & Htab & Hk).
  rewrite Hred in Hred1. injection Hred1 as <-.
  apply activeTabs_only; [exact Htab | by eexists |].
  intros k' t' Hne. rewrite (Hk k' Hne).
  destruct (tabs s !! k') as [t0|]; simpl; [|done].
  intros [= <-]. apply finalizeTab_inactive.
Qed.

Lemma at_most_one_active_step h s a s' :
  (size (activeTabs (tabs s)) ≤ 1)%nat →
  analyticsReducer h s a = Returns s' →
  (size (activeTabs (tabs s')) ≤ 1)%nat.
Proof.
  intros Hs Hred. destruct a.
  - simpl in Hred. destruct (fields s !! field); [|discriminate].
    by injection Hred as <-.
  - rewrite (activeTabs_tab_change h s tab s' Hred).
    by rewrite map_size_singleton.
  - injection Hred as <-. simpl. rewrite activeTabs_finalizeAll, map_size_empty. lia.
  - injection Hred as <-. simpl. rewrite activeTabs_finalizeAll, map_size_empty. lia.
  - injection Hred as <-. rewrite activeTabs_initial, map_size_empty. lia.
  - injection Hred as <-. simpl. rewrite activeTabs_finalizeAll, map_size_empty. lia.
  - by injection Hred as <-.
  - by injection Hred as <-.
Qed.

(** ** RESET_ANALYTICS *)

Lemma assignEach_same_ids {T : Type} (mk : string → T) xs ys :
  list_to_set xs =@{gset string} list_to_set ys →
  assignEach mk xs ∅ = assignEach mk ys ∅.
Proof.
  intros Hset. apply map_eq. intros k. rewrite !lookup_assignEach.
  assert (k ∈ xs ↔ k ∈ ys) as Hiff.
  { rewrite <-!(elem_of_list_to_set (C := gset string)). by rewrite Hset. }
  destruct (decide (k ∈ xs)) as [Hx|Hx]; destruct (decide (k ∈ ys)) as [Hy|Hy];
    try done; tauto.
Qed.

Lemma list_to_set_keys {T : Type} (obj : gmap string T) :
  list_to_set (keys obj) =@{gset string} dom obj.
Proof.
  apply set_eq. intros k.
  by rewrite elem_of_list_to_set, elem_of_keys, elem_of_dom.
Qed.

Lemma lookup_assignEach_keys {T U : Type} (mk : string → T) (obj : gmap string U) k :
  assignEach mk (keys obj) ∅ !! k = (λ _, mk k) <$> obj !! k.
Proof.
  rewrite lookup_assignEach.
  destruct (decide (k ∈ keys obj)) as [Hin|Hout].
  - apply elem_of_keys in Hin as [v ->]. reflexivity.
  - rewrite lookup_empty.
    destruct (obj !! k) as [v|] eqn:Hk; [|done].
    exfalso. apply Hout, elem_of_keys. by eexists.
Qed.

(** ** The [formAlreadySubmitted] ref *)

(** The effect that follows a change of [analytics] clears the flag as
    soon as the session has an identifier. *)
Lemma sessionEffect_clears_flag p :
  sessionId (analytics p) ≠ "" →
  formAlreadySubmitted (sessionEffect p) = false.
Proof.
  intros Hid. unfold sessionEffect.
  destruct (decide (sessionId (analytics p) = "")); [done | reflexivity].
Qed.

(** * The claims *)

(** C1 as stated fails: an idle expiry followed by an explicit submit, both
    for the same session and both with a successful request, deliver two
    records.  The effect that follows each change of [analytics] is run in
    between, as React does. *)
Lemma idle_then_submit_delivers_twice :
  let p0 := mount (at_time 0) ["email"] None in
  ∃ p1 p2,
    exportAnalytics (analytics p0) idle 600000 true (at_time 600050) p0
      = Returns p1 ∧
    exportAnalytics (analytics (sessionEffect p1)) submit 700000 true
      (at_time 700050) (sessionEffect p1) = Returns p2 ∧
    sessionId (analytics p2) = sessionId (analytics p0) ∧
    channel <$> delivered p2 = [AxiosPost; AxiosPost] ∧
    (λ d, sessionId (payload d)) <$> delivered p2
      = [sessionId (analytics p0); sessionId (analytics p0)] ∧
    (λ d, exportReason (payload d)) <$> delivered p2 = [Some idle; Some submit] ∧
    length (delivered p2) ≠ 1%nat.
Proof.
  do 2 eexists.
  split; [by_eval|]. split; [by_eval|]. split; [by_eval|].
  split; [by_eval|]. split; [by_eval|]. split; [by_eval|].
  vm_compute. discriminate.
Qed.

(** C1 (amended).  [exportAnalytics] consults no guard: every call, for
    any reason, whatever [formAlreadySubmitted] and the session record are,
    returns and sends exactly one record, by the request or, when the
    request fails, by the download link.  [formAlreadySubmitted] becomes
    true only in a call with reason [submit] whose request succeeded, and is
    otherwise left as it was.  The unload listener is the only reader of the
    flag: it sends one beacon when the flag is unset and nothing when it is
    set. *)
Theorem export_guard_only_on_unload captured reason now postOk h p :
  (∃ p',
     exportAnalytics captured reason now postOk h p = Returns p' ∧
     delivered p' =
       (delivered p ++
          [ {| channel := if postOk then AxiosPost else DownloadLink;
               payload := completeAnalytics captured reason now |} ])%list ∧
     sessionId (completeAnalytics captured reason now) = sessionId captured ∧
     formAlreadySubmitted p' =
       match reason with
       | submit => postOk || formAlreadySubmitted p
       | tabClose | idle => formAlreadySubmitted p
       end) ∧
  delivered (handleUnload captured p) =
    (if formAlreadySubmitted p then delivered p
     else delivered p ++
            [ {| channel := SendBeacon; payload := unloadBody captured |} ])%list ∧
  sessionId (unloadBody captured) = sessionId captured ∧
  formAlreadySubmitted (handleUnload captured p) = formAlreadySubmitted p.
Proof.
  split.
  - unfold exportAnalytics. destruct postOk.
    + destruct reason; eexists; (split; [reflexivity|]); simpl;
        repeat split; reflexivity.
    + eexists. split; [reflexivity|]. simpl.
      repeat split; try reflexivity. by destruct reason.
  - unfold handleUnload.
    destruct (formAlreadySubmitted p) eqn:Hflag; simpl;
      repeat split; try reflexivity; by rewrite ?Hflag.
Qed.

(** C2 (defect in the code).  The claim says that the reducer returns a
    state for every state and event, and that a VALIDATION_ERROR for a field
    that is not a key of [fields] gives the input state back.  The reducer
    reads [state.fields[action.field].validationErrors] without a test, so
    for such a field it throws: here the form has the top-level fields
    [name] and [address] and the error is reported for the nested path
    [address.city]. *)
Theorem validation_error_unknown_field_throws :
  let h := at_time 1000 in
  let s := createInitialAnalyticsState h ["name"; "address"] (Some ["default"]) in
  fields s !! "address.city" = None ∧
  analyticsReducer h s (VALIDATION_ERROR "address.city" "Required")
    = Throws TypeError.
Proof. vm_compute. split; reflexivity. Qed.

(** C3 as stated fails: re-selecting the active section does not fold the
    elapsed time into [totalTimeSpent].  Section [a] has been active since
    t=0 with nothing accumulated; TAB_CHANGE(a) at t=100 leaves
    [totalTimeSpent] at 0 where the claim expects 0 + (100 - 0). *)
Lemma reselect_active_tab_drops_elapsed :
  let s0 := createInitialAnalyticsState (at_time 0) [] (Some ["a"; "b"]) in
  ∃ s s' t t',
    analyticsReducer (at_time 0) s0 (TAB_CHANGE "a") = Returns s ∧
    tabs s !! "a" = Some t ∧ lastVisitTime t = Some 0 ∧
    analyticsReducer (at_time 100) s (TAB_CHANGE "a") = Returns s' ∧
    tabs s' !! "a" = Some t' ∧
    totalTimeSpent t' = 0 ∧
    totalTimeSpent t' ≠ totalTimeSpent t + (100 - 0).
Proof.
  do 4 eexists.
  split; [by_eval|]. split; [by_eval|]. split; [by_eval|].
  split; [by_eval|]. split; [by_eval|]. split; [by_eval|].
  vm_compute. discriminate.
Qed.

(** C3 (amended).  When section [s] is the active one, TAB_CHANGE(s)
    returns a state in which the record of [s] has the same
    [totalTimeSpent] as before (the time elapsed since [lastVisitTime] is
    not added), [visits] increased by 1 and [lastVisitTime] set to the
    event time; every other section is finalized. *)
Theorem reselect_active_tab h st s t since :
  tabs st !! s = Some t →
  lastVisitTime t = Some since →
  ∃ st' t',
    analyticsReducer h st (TAB_CHANGE s) = Returns st' ∧
    tabs st' !! s = Some t' ∧
    totalTimeSpent t' = totalTimeSpent t ∧
    visits t' = visits t + 1 ∧
    lastVisitTime t' = Some (date_now h) ∧
    ∀ k, k ≠ s → tabs st' !! k = finalizeTab (date_now h) <$> tabs st !! k.
Proof.
  intros Ht Hsince.
  destruct (tab_change_spec h st s) as (st' & Hred & _ & _ & _ & _ & Hs & Hk).
  exists st', (enteredTab (date_now h) (tabs st !! s)).
  rewrite Ht in *. simpl. repeat split; done.
Qed.

Lemma reselect_active_tab_witness :
  let h := at_time 100 in
  let t := mkTab 1 0 (Some 0) (Some 0) in
  let st := mkForm "s" 0 None None ∅ {[ "a" := t ]} false false 0 None in
  ∃ st' t',
    analyticsReducer h st (TAB_CHANGE "a") = Returns st' ∧
    tabs st' !! "a" = Some t' ∧
    totalTimeSpent t' = totalTimeSpent t ∧
    visits t' = visits t + 1 ∧
    lastVisitTime t' = Some (date_now h) ∧
    ∀ k, k ≠ "a" → tabs st' !! k = finalizeTab (date_now h) <$> tabs st !! k.
Proof.
  intros h t st.
  apply (reselect_active_tab h st "a" t 0); vm_compute; reflexivity.
Defined.

(** C4 (defect in the code).  The claim says that [formSubmitted] and
    [formAbandoned] are never both true in a reachable state.  FORM_SUBMIT
    keeps that by writing [formAbandoned: false], but FORM_ABANDON writes
    [formAbandoned: true] and leaves [formSubmitted] as it is: a submit
    followed by an idle expiry ten minutes later ends with both flags
    set. *)
Theorem abandon_after_submit_sets_both_flags :
  let s0 := createInitialAnalyticsState (at_time 0) ["email"] (Some ["default"]) in
  ∃ s,
    runEvents [ (at_time 1000, FORM_SUBMIT); (at_time 601000, FORM_ABANDON) ] s0
      = Returns s ∧
    formSubmitted s = true ∧ formAbandoned s = true.
Proof. eexists. split; [by_eval|]. split; by_eval. Qed.

(** C5.  In every state that a run of the reducer reaches from a freshly
    created session record, [validationErrorCount] is the sum over the
    fields of the number of distinct messages recorded for the field: it
    holds in the fresh record, in the state reached, and in the state that
    any further event returns.  FORM_SUBMIT re-derives the counter: on
    every state, reachable or not and whatever its counter holds,
    FORM_SUBMIT returns, keeps the fields, and sets the counter to the sum
    of the lengths of the message lists of the fields; when no list holds a
    message twice, that is the sum of the numbers of distinct messages. *)
Theorem error_count_is_distinct_total h0 formFields tabIds evs s :
  runEvents evs (createInitialAnalyticsState h0 formFields tabIds) = Returns s →
  validationErrorCount (createInitialAnalyticsState h0 formFields tabIds)
    = distinctTotal (fields (createInitialAnalyticsState h0 formFields tabIds)) ∧
  validationErrorCount s = distinctTotal (fields s) ∧
  (∀ h a s', analyticsReducer h s a = Returns s' →
     validationErrorCount s' = distinctTotal (fields s')) ∧
  (∀ h any, ∃ s', analyticsReducer h any FORM_SUBMIT = Returns s' ∧
     fields s' = fields any ∧
     validationErrorCount s' = totalErrorCount (fields any) ∧
     ((∀ k f, fields any !! k = Some f → NoDup (validationErrors f)) →
      validationErrorCount s' = distinctTotal (fields s'))).
Proof.
  intros Hrun.
  pose proof (errorsLedger_initial h0 formFields tabIds) as Hinit.
  assert (Hs : errorsLedger s).
  { eapply (runEvents_invariant errorsLedger); [|exact Hinit|exact Hrun].
    intros h s1 a s2. apply errorsLedger_step. }
  split; [by apply errorsLedger_distinct|].
  split; [by apply errorsLedger_distinct|].
  split.
  - intros h a s' Hred. apply errorsLedger_distinct.
    by apply (errorsLedger_step h s a).
  - intros h any. eexists. split; [reflexivity|]. simpl.
    split; [done|]. split; [done|].
    intros Hnd.
    apply (errorsLedger_distinct
             {| sessionId := sessionId any;
                formStartTime := formStartTime any;
                formEndTime := Some (date_now h);
                formCompletionTime := Some (date_now h - formStartTime any);
                fields := fields any;
                tabs := finalizeAll (date_now h) (tabs any);
                formSubmitted := true;
                formAbandoned := false;
                validationErrorCount := totalErrorCount (fields any);
                exportReason := Some submit |}).
    by split.
Qed.

Lemma error_count_is_distinct_total_witness :
  let h0 := at_time 0 in
  let evs := [ (at_time 60000, VALIDATION_ERROR "email" "Invalid email address");
               (at_time 130000, VALIDATION_ERROR "email" "Invalid email address");
               (at_time 200000, VALIDATION_ERROR "name" "Required") ] in
  let s0 := createInitialAnalyticsState h0 ["name"; "email"] None in
  let s := mkForm (uuidv4 h0) 0 None None
             (<[ "name" := mkField "name" ["Required"] ]>
                (<[ "email" := mkField "email" ["Invalid email address"] ]> ∅))
             ∅ false false 2 None in
  validationErrorCount s0 = distinctTotal (fields s0) ∧
  validationErrorCount s = distinctTotal (fields s) ∧
  (∀ h a s', analyticsReducer h s a = Returns s' →
     validationErrorCount s' = distinctTotal (fields s')) ∧
  (∀ h any, ∃ s', analyticsReducer h any FORM_SUBMIT = Returns s' ∧
     fields s' = fields any ∧
     validationErrorCount s' = totalErrorCount (fields any) ∧
     ((∀ k f, fields any !! k = Some f → NoDup (validationErrors f)) →
      validationErrorCount s' = distinctTotal (fields s'))).
Proof.
  intros h0 evs s0 s.
  apply (error_count_is_distinct_total h0 ["name"; "email"] None evs s).
  vm_compute. reflexivity.
Defined.

(** C6 as stated fails: when the message is already recorded for the field,
    the two applications add nothing to [validationErrorCount], not 1. *)
Lemma repeated_known_error_adds_nothing :
  let s := mkForm "s" 0 None None
             {[ "email" := mkField "email" ["Invalid email address"] ]}
             ∅ false false 1 None in
  let a := VALIDATION_ERROR "email" "Invalid email address" in
  ∃ s1 s2,
    analyticsReducer (at_time 1) s a = Returns s1 ∧
    analyticsReducer (at_time 2) s1 a = Returns s2 ∧
    validationErrorCount s2 = 1 ∧
    validationErrorCount s2 ≠ validationErrorCount s + 1.
Proof.
  do 2 eexists.
  split; [by_eval|]. split; [by_eval|]. split; [by_eval|].
  vm_compute. discriminate.
Qed.

(** C6 (amended).  For a field present in [fields] and any message,
    applying VALIDATION_ERROR(field, message) twice gives the state that one
    application gives (the second application is the identity), and over
    the two applications [validationErrorCount] grows by exactly 1 when the
    message was not yet recorded for the field, and by 0 when it was. *)
Theorem validation_error_dedup h1 h2 s field error f :
  fields s !! field = Some f →
  ∃ s1,
    analyticsReducer h1 s (VALIDATION_ERROR field error) = Returns s1 ∧
    analyticsReducer h2 s1 (VALIDATION_ERROR field error) = Returns s1 ∧
    validationErrorCount s1 =
      validationErrorCount s
      + (if bool_decide (error ∈ validationErrors f) then 0 else 1).
Proof.
  intros Hf.
  destruct (validation_error_spec h1 s field error f Hf)
    as (s1 & Hred & _ & Hcount & _).
  exists s1. split; [exact Hred|].
  destruct (validation_error_recorded h1 s field error f s1 Hf Hred)
    as (f' & Hf' & Hin').
  split; [|exact Hcount].
  by apply (validation_error_known_is_identity h2 s1 field error f').
Qed.

Lemma validation_error_dedup_witness :
  let s := createInitialAnalyticsState (at_time 0) ["email"] None in
  let f := createInitialFieldAnalytics "email" in
  let error := "Invalid email address" in
  ∃ s1,
    analyticsReducer (at_time 1) s (VALIDATION_ERROR "email" error) = Returns s1 ∧
    analyticsReducer (at_time 2) s1 (VALIDATION_ERROR "email" error) = Returns s1 ∧
    validationErrorCount s1 =
      validationErrorCount s
      + (if bool_decide (error ∈ validationErrors f) then 0 else 1).
Proof.
  intros s f error.
  apply (validation_error_dedup (at_time 1) (at_time 2) s "email" error f).
  vm_compute. reflexivity.
Defined.

(** C7 as stated fails: a freshly created session record has no active
    section, with the section list given as well as with the default
    section of the provider. *)
Lemma fresh_session_has_no_active_tab :
  let s := createInitialAnalyticsState (at_time 0) ["email"]
             (Some ["personal"; "payment"]) in
  let p := mount (at_time 0) ["email"] None in
  runEvents [] s = Returns s ∧
  size (activeTabs (tabs s)) = 0%nat ∧
  size (activeTabs (tabs s)) ≠ 1%nat ∧
  size (activeTabs (tabs (analytics p))) ≠ 1%nat.
Proof. vm_compute. repeat split; discriminate. Qed.

(** C7 (amended).  In every state that a run of the reducer reaches from a
    freshly created session record, at most one tab record has a non-null
    [lastVisitTime].  The fresh record has none; TAB_CHANGE always returns
    and leaves exactly one, its target; FINALIZE_TAB_TIMES, FORM_SUBMIT,
    FORM_ABANDON and RESET_ANALYTICS leave none; VALIDATION_ERROR,
    SET_EXPORT_REASON and an unknown action leave the active tabs as they
    were. *)
Theorem at_most_one_active_tab h0 formFields tabIds evs s :
  runEvents evs (createInitialAnalyticsState h0 formFields tabIds) = Returns s →
  (size (activeTabs (tabs s)) ≤ 1)%nat ∧
  size (activeTabs (tabs (createInitialAnalyticsState h0 formFields tabIds))) = 0%nat ∧
  (∀ h tab, ∃ s',
     analyticsReducer h s (TAB_CHANGE tab) = Returns s' ∧
     size (activeTabs (tabs s')) = 1%nat ∧
     is_Some (activeTabs (tabs s') !! tab)) ∧
  (∀ h a s',
     a ∈ [FINALIZE_TAB_TIMES; FORM_SUBMIT; FORM_ABANDON; RESET_ANALYTICS] →
     analyticsReducer h s a = Returns s' →
     size (activeTabs (tabs s')) = 0%nat) ∧
  (∀ h a s',
     (∀ tab, a ≠ TAB_CHANGE tab) →
     a ∉ [FINALIZE_TAB_TIMES; FORM_SUBMIT; FORM_ABANDON; RESET_ANALYTICS] →
     analyticsReducer h s a = Returns s' →
     activeTabs (tabs s') = activeTabs (tabs s)).
Proof.
  intros Hrun.
  pose proof (activeTabs_initial h0 formFields tabIds) as Hinit.
  split.
  { eapply (runEvents_invariant (λ s, (size (activeTabs (tabs s)) ≤ 1)%nat));
      [| |exact Hrun].
    - intros h s1 a s2. apply at_most_one_active_step.
    - rewrite Hinit, map_size_empty. lia. }
  split; [by rewrite Hinit, map_size_empty|].
  split; [|split].
  - intros h tab.
    destruct (tab_change_spec h s tab) as (s' & Hred & _).
    exists s'. split; [exact Hred|].
    rewrite (activeTabs_tab_change h s tab s' Hred).
    split; [apply map_size_singleton|].
    rewrite lookup_singleton_eq. by eexists.
  - intros h a s' Ha Hred.
    assert (a = FINALIZE_TAB_TIMES ∨ a = FORM_SUBMIT ∨ a = FORM_ABANDON
            ∨ a = RESET_ANALYTICS) as [->|[->|[->| ->]]]
      by (rewrite !elem_of_cons, elem_of_nil in Ha; tauto);
      injection Hred as <-;
      first [ rewrite activeTabs_initial
            | simpl; rewrite activeTabs_finalizeAll ];
      apply map_size_empty.
  - intros h a s' Hnot Hnot' Hred. destruct a.
    + simpl in Hred. destruct (fields s !! field); [|discriminate].
      by injection Hred as <-.
    + by destruct (Hnot tab).
    + exfalso. apply Hnot'. set_solver.
    + exfalso. apply Hnot'. set_solver.
    + exfalso. apply Hnot'. set_solver.
    + exfalso. apply Hnot'. set_solver.
    + by injection Hred as <-.
    + by injection Hred as <-.
Qed.

Lemma at_most_one_active_tab_witness :
  let h0 := at_time 0 in
  let evs := [ (at_time 0, TAB_CHANGE "personal");
               (at_time 5000, TAB_CHANGE "payment") ] in
  let s := mkForm (uuidv4 h0) 0 None None ∅
             (<[ "payment" := mkTab 1 0 (Some 5000) (Some 5000) ]>
                (<[ "personal" := mkTab 1 5000 None (Some 0) ]> ∅))
             false false 0 None in
  (size (activeTabs (tabs s)) ≤ 1)%nat ∧
  size (activeTabs (tabs (createInitialAnalyticsState h0 []
                            (Some ["personal"; "payment"])))) = 0%nat ∧
  (∀ h tab, ∃ s',
     analyticsReducer h s (TAB_CHANGE tab) = Returns s' ∧
     size (activeTabs (tabs s')) = 1%nat ∧
     is_Some (activeTabs (tabs s') !! tab)) ∧
  (∀ h a s',
     a ∈ [FINALIZE_TAB_TIMES; FORM_SUBMIT; FORM_ABANDON; RESET_ANALYTICS] →
     analyticsReducer h s a = Returns s' →
     size (activeTabs (tabs s')) = 0%nat) ∧
  (∀ h a s',
     (∀ tab, a ≠ TAB_CHANGE tab) →
     a ∉ [FINALIZE_TAB_TIMES; FORM_SUBMIT; FORM_ABANDON; RESET_ANALYTICS] →
     analyticsReducer h s a = Returns s' →
     activeTabs (tabs s') = activeTabs (tabs s)).
Proof.
  intros h0 evs s.
  apply (at_most_one_active_tab h0 [] (Some ["personal"; "payment"]) evs s).
  vm_compute. reflexivity.
Defined.

(** C8.  Scenario A: after TAB_CHANGE(personal) at 0, TAB_CHANGE(payment) at
    5000, TAB_CHANGE(experience) at 12000 and FORM_SUBMIT at 20000 on a
    session created at 0 with the three sections, the accumulated times
    are 5000, 7000 and 8000, the form is submitted and the completion time
    is 20000.  The field list and the session id play no part. *)
Theorem scenarioA_result (uuid : string) (formFields : list string) :
  ∃ s,
    scenarioA uuid formFields = Returns s ∧
    totalTimeSpent <$> tabs s !! "personal" = Some 5000 ∧
    totalTimeSpent <$> tabs s !! "payment" = Some 7000 ∧
    totalTimeSpent <$> tabs s !! "experience" = Some 8000 ∧
    formSubmitted s = true ∧
    formCompletionTime s = Some 20000.
Proof.
  eexists. split; [by_eval|].
  split; [by_eval|]. split; [by_eval|]. split; [by_eval|].
  split; by_eval.
Qed.

(** C9.  RESET_ANALYTICS always returns; the record it returns agrees in
    every component but [sessionId] with a record freshly created at the
    same clock reading from any enumeration of the field identifiers and
    of the tab identifiers of the prior state; its [sessionId] is the one
    drawn by the call.  The identifiers are those of the prior state, every
    field has an empty error list, every tab is an initial tab record, the
    counter is zero and no terminal marker is set. *)
Theorem reset_is_fresh h h' s fieldIds tabIds :
  list_to_set fieldIds =@{gset string} dom (fields s) →
  list_to_set tabIds =@{gset string} dom (tabs s) →
  date_now h' = date_now h →
  ∃ s',
    analyticsReducer h s RESET_ANALYTICS = Returns s' ∧
    sameButSessionId s' (createInitialAnalyticsState h' fieldIds (Some tabIds)) ∧
    sessionId s' = uuidv4 h ∧
    (∀ k, fields s' !! k = (λ _, createInitialFieldAnalytics k) <$> fields s !! k) ∧
    (∀ k, tabs s' !! k = (λ _, createInitialTabAnalytics) <$> tabs s !! k) ∧
    validationErrorCount s' = 0 ∧
    formSubmitted s' = false ∧ formAbandoned s' = false ∧
    formEndTime s' = None ∧ formCompletionTime s' = None ∧
    exportReason s' = None.
Proof.
  intros Hfields Htabs Hclock.
  eexists. split; [reflexivity|].
  split; [|split; [reflexivity|]].
  - unfold sameButSessionId. simpl.
    rewrite Hclock.
    rewrite (assignEach_same_ids createInitialFieldAnalytics (keys (fields s)) fieldIds)
      by (by rewrite list_to_set_keys).
    rewrite (assignEach_same_ids (λ _, createInitialTabAnalytics) (keys (tabs s)) tabIds)
      by (by rewrite list_to_set_keys).
    repeat split; reflexivity.
  - simpl. split; [intros k; apply lookup_assignEach_keys|].
    split; [intros k; apply lookup_assignEach_keys|].
    repeat split; reflexivity.
Qed.

Lemma reset_is_fresh_witness :
  let h := mkHost 90000 "9b1deb4d-3b7d-4bad-9bdd-2b0d7b3dcb6d" in
  let h' := mkHost 90000 "1b9d6bcd-bbfd-4b2d-9b5d-ab8dfbbd4bed" in
  let s := mkForm "3f2b8c1e-5d4a-4e6f-9a7b-0c1d2e3f4a5b" 0 (Some 80000) (Some 80000)
             (<[ "name" := mkField "name" [] ]>
                (<[ "email" := mkField "email" ["Invalid email address"] ]> ∅))
             (<[ "default" := mkTab 1 80000 None (Some 0) ]> ∅)
             true false 1 (Some submit) in
  let fieldIds := ["name"; "email"] in
  let tabIds := ["default"] in
  ∃ s',
    analyticsReducer h s RESET_ANALYTICS = Returns s' ∧
    sameButSessionId s' (createInitialAnalyticsState h' fieldIds (Some tabIds)) ∧
    sessionId s' = uuidv4 h ∧
    (∀ k, fields s' !! k = (λ _, createInitialFieldAnalytics k) <$> fields s !! k) ∧
    (∀ k, tabs s' !! k = (λ _, createInitialTabAnalytics) <$> tabs s !! k) ∧
    validationErrorCount s' = 0 ∧
    formSubmitted s' = false ∧ formAbandoned s' = false ∧
    formEndTime s' = None ∧ formCompletionTime s' = None ∧
    exportReason s' = None.
Proof.
  intros h h' s fieldIds tabIds.
  apply (reset_is_fresh h h' s fieldIds tabIds).
  - vm_compute. reflexivity.
  - vm_compute. reflexivity.
  - reflexivity.
Defined.

(** C10.  A terminal flag does not stop the reducer.  In a state with
    [formSubmitted] or [formAbandoned] set, VALIDATION_ERROR for a known
    field with a message not yet recorded appends the message and adds 1 to
    [validationErrorCount], and TAB_CHANGE adds 1 to the [visits] of its
    target (0 when the tab is new) and makes it active at the event time;
    both leave the two flags as they were.  No action is suppressed: on the
    same state with the two flags cleared, every action ends the same way
    and gives the same result up to the two flags. *)
Theorem terminal_state_not_absorbing h s field error f tab :
  formSubmitted s = true ∨ formAbandoned s = true →
  fields s !! field = Some f →
  error ∉ validationErrors f →
  (∃ s' f',
     analyticsReducer h s (VALIDATION_ERROR field error) = Returns s' ∧
     fields s' !! field = Some f' ∧
     validationErrors f' = (validationErrors f ++ [error])%list ∧
     validationErrorCount s' = validationErrorCount s + 1 ∧
     formSubmitted s' = formSubmitted s ∧
     formAbandoned s' = formAbandoned s) ∧
  (∃ s' t',
     analyticsReducer h s (TAB_CHANGE tab) = Returns s' ∧
     tabs s' !! tab = Some t' ∧
     visits t' = from_option visits 0 (tabs s !! tab) + 1 ∧
     lastVisitTime t' = Some (date_now h) ∧
     formSubmitted s' = formSubmitted s ∧
     formAbandoned s' = formAbandoned s) ∧
  (∀ a live,
     sameButFlags s live →
     formSubmitted live = false → formAbandoned live = false →
     sameOutcomeButFlags (analyticsReducer h s a) (analyticsReducer h live a)).
Proof.
  intros _ Hf Hnew.
  split; [|split;
    [|intros a live Hsame _ _; by apply reducer_ignores_flags]].
  - destruct (validation_error_spec h s field error f Hf)
      as (s' & Hred & Hfields & Hcount & _ & Hsub & Hab).
    rewrite bool_decide_eq_false_2 in Hfields, Hcount by exact Hnew.
    eexists s', _. split; [exact Hred|].
    split; [rewrite Hfields; apply lookup_insert_eq|].
    simpl. repeat split; done.
  - destruct (tab_change_spec h s tab)
      as (s' & Hred & _ & _ & Hsub & Hab & Htab & _).
    exists s', (enteredTab (date_now h) (tabs s !! tab)).
    repeat split; done.
Qed.

Lemma terminal_state_not_absorbing_witness :
  let h := at_time 60 in
  let f := mkField "email" [] in
  let s := mkForm "s" 0 (Some 50) (Some 50) {[ "email" := f ]}
             {[ "default" := mkTab 1 50 None (Some 0) ]}
             true false 0 (Some submit) in
  (∃ s' f',
     analyticsReducer h s (VALIDATION_ERROR "email" "Required") = Returns s' ∧
     fields s' !! "email" = Some f' ∧
     validationErrors f' = (validationErrors f ++ ["Required"])%list ∧
     validationErrorCount s' = validationErrorCount s + 1 ∧
     formSubmitted s' = formSubmitted s ∧
     formAbandoned s' = formAbandoned s) ∧
  (∃ s' t',
     analyticsReducer h s (TAB_CHANGE "default") = Returns s' ∧
     tabs s' !! "default" = Some t' ∧
     visits t' = from_option visits 0 (tabs s !! "default") + 1 ∧
     lastVisitTime t' = Some (date_now h) ∧
     formSubmitted s' = formSubmitted s ∧
     formAbandoned s' = formAbandoned s) ∧
  (∀ a live,
     sameButFlags s live →
     formSubmitted live = false → formAbandoned live = false →
     sameOutcomeButFlags (analyticsReducer h s a) (analyticsReducer h live a)).
Proof.
  intros h f s.
  apply (terminal_state_not_absorbing h s "email" "Required" f "default").
  - left. reflexivity.
  - vm_compute. reflexivity.
  - simpl. apply not_elem_of_nil.
Defined.

(** * Further properties of the reducer *)

(** ** Sums over an object *)

Section map_sums.
Context {A : Type}.
Implicit Types (w : A → Z) (m : gmap string A).

Lemma mapSum_empty w : mapSum w ∅ = 0.
Proof. unfold mapSum. apply map_fold_empty. Qed.

Lemma mapSum_insert_fresh w k x m :
  m !! k = None → mapSum w (<[k := x]> m) = mapSum w m + w x.
Proof.
  intros Hk. unfold mapSum.
  rewrite map_fold_insert_L; [done | intros; lia | exact Hk].
Qed.

Lemma mapSum_delete w k x m :
  m !! k = Some x → mapSum w m = mapSum w (delete k m) + w x.
Proof.
  intros Hk. rewrite <-(insert_delete_id m k x Hk) at 1.
  apply mapSum_insert_fresh, lookup_delete_eq.
Qed.

Lemma mapSum_insert w k x m :
  mapSum w (<[k := x]> m) = mapSum w (delete k m) + w x.
Proof.
  rewrite <-(insert_delete_eq m k x).
  apply mapSum_insert_fresh, lookup_delete_eq.
Qed.

Lemma mapSum_singleton w k x : mapSum w {[ k := x ]} = w x.
Proof.
  rewrite <-insert_empty, mapSum_insert_fresh by apply lookup_empty.
  rewrite mapSum_empty. lia.
Qed.

Lemma mapSum_ext w1 w2 m :
  (∀ k x, m !! k = Some x → w1 x = w2 x) → mapSum w1 m = mapSum w2 m.
Proof.
  induction m as [|k x m Hk IH] using map_ind; intros Hw.
  - by rewrite !mapSum_empty.
  - rewrite !mapSum_insert_fresh by exact Hk.
    rewrite IH.
    + f_equal. apply (Hw k). apply lookup_insert_eq.
    + intros k' x' Hk'. apply (Hw k').
      rewrite lookup_insert_ne; [exact Hk'|]. intros ->. congruence.
Qed.

Lemma mapSum_plus w1 w2 m :
  mapSum (λ x, w1 x + w2 x) m = mapSum w1 m + mapSum w2 m.
Proof.
  induction m as [|k x m Hk IH] using map_ind.
  - by rewrite !mapSum_empty.
  - rewrite !mapSum_insert_fresh by exact Hk. lia.
Qed.

Lemma mapSum_filter (P : string * A → Prop) `{!∀ x, Decision (P x)} w m :
  (∀ k x, m !! k = Some x → ¬ P (k, x) → w x = 0) →
  mapSum w (filter P m) = mapSum w m.
Proof.
  induction m as [|k x m Hk IH] using map_ind; intros Hzero.
  - by rewrite map_filter_empty.
  - assert (IH' : mapSum w (filter P m) = mapSum w m).
    { apply IH. intros k' x' Hk' HP. apply (Hzero k'); [|exact HP].
      rewrite lookup_insert_ne; [exact Hk'|]. intros ->. congruence. }
    destruct (decide (P (k, x))) as [HP|HP].
    + rewrite map_filter_insert_True by exact HP.
      rewrite (mapSum_insert_fresh w k x (filter P m))
        by (apply map_lookup_filter_None; by left).
      rewrite (mapSum_insert_fresh w k x m) by exact Hk. lia.
    + rewrite map_filter_insert_False by exact HP.
      rewrite (delete_id m k) by exact Hk.
      rewrite mapSum_insert_fresh by exact Hk.
      rewrite (Hzero k x); [lia | apply lookup_insert_eq | exact HP].
Qed.
End map_sums.

Lemma mapSum_fmap {A B : Type} (f : B → A) (w : A → Z) (m : gmap string B) :
  mapSum w (f <$> m) = mapSum (λ x, w (f x)) m.
Proof.
  induction m as [|k x m Hk IH] using map_ind.
  - by rewrite fmap_empty, !mapSum_empty.
  - rewrite fmap_insert.
    rewrite (mapSum_insert_fresh w k (f x)) by (by rewrite lookup_fmap, Hk).
    rewrite (mapSum_insert_fresh _ k x m) by exact Hk.
    by rewrite IH.
Qed.

(** ** The shape of the state after one action *)

Lemma tab_change_tabs h s tab s' :
  analyticsReducer h s (TAB_CHANGE tab) = Returns s' →
  tabs s' = <[tab := enteredTab (date_now h) (tabs s !! tab)]>
              (finalizeAll (date_now h) (tabs s)).
Proof.
  intros Hred.
  destruct (tab_change_spec h s tab) as (s1 & Hred1 & _ & _ & _ & _ & Htab & Hk).
  rewrite Hred in Hred1. injection Hred1 as <-.
  apply map_eq. intros k. destruct (decide (k = tab)) as [->|Hne].
  - by rewrite lookup_insert_eq.
  - rewrite lookup_insert_ne by done. rewrite lookup_finalizeAll. by apply Hk.
Qed.

Lemma dom_assignEach_keys {T U : Type} (mk : string → T) (obj : gmap string U) :
  dom (assignEach mk (keys obj) ∅) = dom obj.
Proof.
  apply set_eq. intros k. rewrite !elem_of_dom, lookup_assignEach_keys.
  by rewrite fmap_is_Some.
Qed.

(** X1.  Whatever the action, the state it returns has the field
    identifiers of the state before; its tab identifiers are those of the
    state before, with the target added when the action is TAB_CHANGE.  No
    action removes a field or a tab, and only TAB_CHANGE adds one. *)
Theorem reducer_identifier_sets h s a s' :
  analyticsReducer h s a = Returns s' →
  dom (fields s') = dom (fields s) ∧
  dom (tabs s') =
    dom (tabs s) ∪ tabRequested a.
Proof.
  intros Hred. destruct a; simpl tabRequested; rewrite ?union_empty_r_L.
  - simpl in Hred. destruct (fields s !! field) as [f|] eqn:Hf; [|discriminate].
    injection Hred as <-. simpl. split; [|done].
    apply dom_insert_lookup_L. by eexists.
  - rewrite (tab_change_tabs h s tab s' Hred).
    destruct (tab_change_spec h s tab) as (s1 & Hred1 & Hfields & _).
    rewrite Hred in Hred1. injection Hred1 as <-.
    split; [by rewrite Hfields|].
    unfold finalizeAll. rewrite dom_insert_L, dom_fmap_L. apply union_comm_L.
  - injection Hred as <-. simpl. split; [done|].
    unfold finalizeAll. by rewrite dom_fmap_L.
  - injection Hred as <-. simpl. split; [done|].
    unfold finalizeAll. by rewrite dom_fmap_L.
  - injection Hred as <-. simpl. by rewrite !dom_assignEach_keys.
  - injection Hred as <-. simpl. split; [done|].
    unfold finalizeAll. by rewrite dom_fmap_L.
  - injection Hred as <-. simpl. by split.
  - injection Hred as <-. by split.
Qed.

Lemma reducer_identifier_sets_witness :
  let h := at_time 7000 in
  let s := createInitialAnalyticsState (at_time 0) ["name"; "email"]
             (Some ["personal"]) in
  let a := TAB_CHANGE "payment" in
  let s' := mkForm (uuidv4 h) 0 None None (fields s)
              (<[ "payment" := mkTab 1 0 (Some 7000) (Some 7000) ]> (tabs s))
              false false 0 None in
  dom (fields s') = dom (fields s) ∧
  dom (tabs s') = dom (tabs s) ∪ tabRequested a.
Proof.
  intros h s a s'.
  apply (reducer_identifier_sets h s a s').
  vm_compute. reflexivity.
Defined.

(** X2.  In every state that a run of the reducer reaches from a freshly
    created session record, the [id] of each field record is the key under
    which the record is stored. *)
Theorem field_ids_are_keys h0 formFields tabIds evs s k f :
  runEvents evs (createInitialAnalyticsState h0 formFields tabIds) = Returns s →
  fields s !! k = Some f →
  id f = k.
Proof.
  intros Hrun. revert k f.
  eapply (runEvents_invariant
            (λ s, ∀ k f, fields s !! k = Some f → id f = k)); [| |exact Hrun].
  - intros h s1 a s2 Hinv Hred k f. destruct a; simpl in Hred;
      try (injection Hred as <-; by apply Hinv).
    + destruct (fields s1 !! field) as [f1|] eqn:Hf; [|discriminate].
      injection Hred as <-. simpl.
      destruct (decide (k = field)) as [->|Hne].
      * rewrite lookup_insert_eq. intros [= <-]. simpl. by apply Hinv.
      * rewrite lookup_insert_ne by done. apply Hinv.
    + injection Hred as <-. simpl. rewrite lookup_assignEach_keys.
      destruct (fields s1 !! k); simpl; [|done]. by intros [= <-].
  - intros k f. simpl. rewrite lookup_assignEach.
    destruct (decide (k ∈ formFields)); [|by rewrite lookup_empty].
    by intros [= <-].
Qed.

Lemma field_ids_are_keys_witness :
  let evs := [ (at_time 60000, VALIDATION_ERROR "email" "Invalid email address") ] in
  let f := mkField "email" ["Invalid email address"] in
  id f = "email".
Proof.
  intros evs f.
  apply (field_ids_are_keys (at_time 0) ["name"; "email"] None evs
           (mkForm (uuidv4 (at_time 0)) 0 None None
              (<[ "email" := f ]> (<[ "name" := mkField "name" [] ]> ∅))
              ∅ false false 1 None) "email" f).
  - vm_compute. reflexivity.
  - vm_compute. reflexivity.
Defined.

(** X3.  From a state that a run reaches from a freshly created session
    record, an action other than RESET_ANALYTICS never loses a recorded
    message: each field keeps its list as a prefix of its new list, and
    [validationErrorCount] does not go down. *)
Theorem errors_only_grow h0 formFields tabIds evs s h a s' :
  runEvents evs (createInitialAnalyticsState h0 formFields tabIds) = Returns s →
  a ≠ RESET_ANALYTICS →
  analyticsReducer h s a = Returns s' →
  (∀ k f, fields s !! k = Some f →
     ∃ f', fields s' !! k = Some f' ∧
           validationErrors f `prefix_of` validationErrors f') ∧
  (validationErrorCount s ≤ validationErrorCount s')%Z.
Proof.
  intros Hrun Ha Hred.
  assert (Hs : errorsLedger s).
  { eapply (runEvents_invariant errorsLedger);
      [|apply errorsLedger_initial|exact Hrun].
    intros h1 s1 a1 s2. apply errorsLedger_step. }
  destruct Hs as [_ Hcount].
  destruct a; simpl in Hred; try done;
    try (injection Hred as <-; simpl; split; [by eauto|lia]).
  destruct (fields s !! field) as [f0|] eqn:Hf; [|discriminate].
  injection Hred as <-. simpl. split.
  - intros k f Hk. destruct (decide (k = field)) as [->|Hne].
    + rewrite lookup_insert_eq. eexists. split; [reflexivity|]. simpl.
      assert (f = f0) as -> by congruence.
      case_bool_decide; [done | by apply prefix_app_r].
    + rewrite lookup_insert_ne by done. by eauto.
  - case_bool_decide; lia.
Qed.

Lemma errors_only_grow_witness :
  let h0 := at_time 0 in
  let evs := [ (at_time 60000, VALIDATION_ERROR "email" "Invalid email address") ] in
  let s := mkForm (uuidv4 h0) 0 None None
             (<[ "email" := mkField "email" ["Invalid email address"] ]> ∅)
             ∅ false false 1 None in
  let a := VALIDATION_ERROR "email" "Required" in
  let s' := mkForm (uuidv4 h0) 0 None None
              (<[ "email" := mkField "email" ["Invalid email address"; "Required"] ]> ∅)
              ∅ false false 2 None in
  (∀ k f, fields s !! k = Some f →
     ∃ f', fields s' !! k = Some f' ∧
           validationErrors f `prefix_of` validationErrors f') ∧
  (validationErrorCount s ≤ validationErrorCount s')%Z.
Proof.
  intros h0 evs s a s'.
  apply (errors_only_grow h0 ["email"] None evs s (at_time 130000) a s').
  - vm_compute. reflexivity.
  - discriminate.
  - vm_compute. reflexivity.
Defined.

(** X4.  In every state that a run reaches from a freshly created session
    record, [formCompletionTime] is set exactly when [formSubmitted] is, and
    [formEndTime] is set exactly when [formSubmitted] or [formAbandoned]
    is. *)
Theorem terminal_markers_match_flags h0 formFields tabIds evs s :
  runEvents evs (createInitialAnalyticsState h0 formFields tabIds) = Returns s →
  (is_Some (formCompletionTime s) ↔ formSubmitted s = true) ∧
  (is_Some (formEndTime s) ↔ formSubmitted s || formAbandoned s = true).
Proof.
  intros Hrun.
  eapply (runEvents_invariant
            (λ s, (is_Some (formCompletionTime s) ↔ formSubmitted s = true) ∧
                  (is_Some (formEndTime s)
                   ↔ formSubmitted s || formAbandoned s = true)));
    [| |exact Hrun].
  - intros h s1 a s2 [Hc He] Hred. destruct a; simpl in Hred;
      try (injection Hred as <-; simpl; by split).
    + destruct (fields s1 !! field); [|discriminate].
      injection Hred as <-. simpl. by split.
    + injection Hred as <-. simpl. split; [exact Hc|].
      rewrite orb_true_r. split; by eauto.
  - simpl. split; split; first [ by intros [? [=]] | discriminate ].
Qed.

Lemma terminal_markers_match_flags_witness :
  let h0 := at_time 0 in
  let evs := [ (at_time 30000, FORM_ABANDON) ] in
  let s := mkForm (uuidv4 h0) 0 (Some 30000) None ∅ ∅ false true 0 None in
  (is_Some (formCompletionTime s) ↔ formSubmitted s = true) ∧
  (is_Some (formEndTime s) ↔ formSubmitted s || formAbandoned s = true).
Proof.
  intros h0 evs s.
  apply (terminal_markers_match_flags h0 [] None evs s).
  vm_compute. reflexivity.
Defined.

(** ** Recorded and pending time *)

Lemma mapSum_all_zero {A : Type} (w : A → Z) (m : gmap string A) :
  (∀ k x, m !! k = Some x → w x = 0) → mapSum w m = 0.
Proof.
  induction m as [|k x m Hk IH] using map_ind; intros Hzero.
  - apply mapSum_empty.
  - rewrite mapSum_insert_fresh by exact Hk.
    rewrite IH, (Hzero k x); [lia | apply lookup_insert_eq |].
    intros k' x' Hk'. apply (Hzero k').
    rewrite lookup_insert_ne; [exact Hk'|]. intros ->. congruence.
Qed.

Lemma mapSum_split {A : Type} (w : A → Z) (m : gmap string A) k :
  mapSum w m = mapSum w (delete k m) + from_option w 0 (m !! k).
Proof.
  destruct (m !! k) as [x|] eqn:Hk; simpl.
  - by apply mapSum_delete.
  - rewrite delete_id by exact Hk. lia.
Qed.

Lemma totalSpent_finalizeAll now ts :
  totalSpent (finalizeAll now ts) = totalSpent ts + pendingAt now ts.
Proof.
  unfold totalSpent, pendingAt, finalizeAll.
  rewrite mapSum_fmap, <-mapSum_plus. apply mapSum_ext.
  intros k t _. unfold finalizeTab, pendingOf.
  destruct (lastVisitTime t); simpl; lia.
Qed.

Lemma pendingAt_finalizeAll t now ts : pendingAt t (finalizeAll now ts) = 0.
Proof.
  unfold pendingAt, finalizeAll. rewrite mapSum_fmap.
  apply mapSum_all_zero. intros k x _. unfold pendingOf.
  by rewrite finalizeTab_inactive.
Qed.

Lemma pendingAt_active now ts :
  pendingAt now ts = pendingAt now (activeTabs ts).
Proof.
  unfold pendingAt, activeTabs. symmetry. apply mapSum_filter.
  intros k x _ Hx. simpl in Hx. unfold pendingOf.
  destruct (lastVisitTime x); [|done]. exfalso. apply Hx. by eexists.
Qed.

Lemma pendingAt_sole_active now ts a x t :
  activeTabs ts = {[ a := x ]} → lastVisitTime x = Some t →
  pendingAt now ts = now - t.
Proof.
  intros Hact Hx. rewrite pendingAt_active, Hact.
  unfold pendingAt. rewrite mapSum_singleton. unfold pendingOf. by rewrite Hx.
Qed.

Lemma activeTabs_delete_other ts a b x :
  activeTabs ts = {[ a := x ]} → a ≠ b →
  activeTabs (delete b ts) = {[ a := x ]}.
Proof.
  intros Hact Hne. unfold activeTabs in *.
  rewrite map_filter_delete, Hact. apply delete_id.
  by rewrite lookup_singleton_ne.
Qed.

(** X5.  FINALIZE_TAB_TIMES, FORM_SUBMIT and FORM_ABANDON always return;
    the time recorded over all tabs grows by exactly the time that was
    pending (for each active tab, the clock reading minus its
    [lastVisitTime]), and no tab is active afterwards. *)
Theorem finalization_records_pending_time h s a :
  a ∈ [FINALIZE_TAB_TIMES; FORM_SUBMIT; FORM_ABANDON] →
  ∃ s',
    analyticsReducer h s a = Returns s' ∧
    totalSpent (tabs s')
      = totalSpent (tabs s) + pendingAt (date_now h) (tabs s) ∧
    activeTabs (tabs s') = ∅.
Proof.
  intros Ha.
  assert (a = FINALIZE_TAB_TIMES ∨ a = FORM_SUBMIT ∨ a = FORM_ABANDON)
    as [->|[->| ->]]
    by (rewrite !elem_of_cons, elem_of_nil in Ha; tauto);
    (eexists; split; [reflexivity|]; simpl;
     split; [apply totalSpent_finalizeAll | apply activeTabs_finalizeAll]).
Qed.

Lemma finalization_records_pending_time_witness :
  let h := at_time 9000 in
  let s := mkForm "s" 0 None None ∅
             (<[ "payment" := mkTab 1 0 (Some 5000) (Some 5000) ]>
                (<[ "personal" := mkTab 1 5000 None (Some 0) ]> ∅))
             false false 0 None in
  ∃ s',
    analyticsReducer h s FORM_ABANDON = Returns s' ∧
    totalSpent (tabs s')
      = totalSpent (tabs s) + pendingAt (date_now h) (tabs s) ∧
    activeTabs (tabs s') = ∅.
Proof.
  intros h s.
  apply (finalization_records_pending_time h s FORM_ABANDON).
  rewrite !elem_of_cons. tauto.
Defined.

(** X6.  TAB_CHANGE always returns.  The time recorded over all tabs grows
    by the pending time of every tab but the target: what was pending on the
    target itself, when it was the active tab, is not recorded.  Afterwards
    nothing is pending at the clock reading of the call. *)
Theorem tab_change_records_other_tabs h s tab :
  ∃ s',
    analyticsReducer h s (TAB_CHANGE tab) = Returns s' ∧
    totalSpent (tabs s')
      = totalSpent (tabs s) + pendingAt (date_now h) (delete tab (tabs s)) ∧
    pendingAt (date_now h) (tabs s') = 0.
Proof.
  destruct (tab_change_spec h s tab) as (s' & Hred & _).
  exists s'. split; [exact Hred|].
  rewrite (tab_change_tabs h s tab s' Hred).
  pose proof (totalSpent_finalizeAll (date_now h) (delete tab (tabs s))) as Hfin.
  pose proof (pendingAt_finalizeAll (date_now h) (date_now h)
                (delete tab (tabs s))) as Hpend.
  pose proof (mapSum_split totalTimeSpent (tabs s) tab) as Hsplit.
  unfold totalSpent, pendingAt, finalizeAll in *.
  rewrite !mapSum_insert, <-!fmap_delete.
  split; [simpl; lia|].
  rewrite Hpend. unfold pendingOf. simpl. lia.
Qed.

Lemma totalSpent_initial h formFields tabIds :
  totalSpent (tabs (createInitialAnalyticsState h formFields tabIds)) = 0.
Proof.
  apply mapSum_all_zero. intros k t. simpl.
  destruct tabIds as [ids|]; [|by rewrite lookup_empty].
  rewrite lookup_assignEach.
  destruct (decide (k ∈ ids)); [|by rewrite lookup_empty].
  by intros [= <-].
Qed.

Lemma runEvents_tab_change h b steps evs s s1 :
  analyticsReducer h s (TAB_CHANGE b) = Returns s1 →
  runEvents (tabChanges ((h, b) :: steps) ++ evs) s
  = runEvents (tabChanges steps ++ evs) s1.
Proof.
  intros Hred.
  change (tabChanges ((h, b) :: steps) ++ evs)%list
    with ((h, TAB_CHANGE b) :: (tabChanges steps ++ evs))%list.
  change (runEvents ((h, TAB_CHANGE b) :: (tabChanges steps ++ evs))%list s)
    with (bindO (analyticsReducer h s (TAB_CHANGE b))
            (runEvents (tabChanges steps ++ evs)%list)).
  by rewrite Hred.
Qed.

Lemma conservation_from steps hT s a x t :
  activeTabs (tabs s) = {[ a := x ]} →
  lastVisitTime x = Some t →
  noReselect (a :: steps.*2) = true →
  ∃ s',
    runEvents (tabChanges steps ++ [(hT, FINALIZE_TAB_TIMES)]) s = Returns s' ∧
    totalSpent (tabs s') = totalSpent (tabs s) + (date_now hT - t).
Proof.
  revert s a x t. induction steps as [|[h b] steps IH]; intros s a x t Hact Hx Hno.
  - simpl. eexists. split; [reflexivity|]. simpl.
    by rewrite totalSpent_finalizeAll, (pendingAt_sole_active _ _ a x t).
  - simpl in Hno. apply andb_true_iff in Hno as [Hab Hno].
    apply bool_decide_eq_true in Hab.
    destruct (tab_change_records_other_tabs h s b) as (s1 & Hred & Hspent & _).
    rewrite (pendingAt_sole_active _ _ a x t) in Hspent;
      [|by apply activeTabs_delete_other|exact Hx].
    destruct (IH s1 b (enteredTab (date_now h) (tabs s !! b)) (date_now h))
      as (s' & Hrun & Hfinal).
    + by apply activeTabs_tab_change.
    + reflexivity.
    + exact Hno.
    + exists s'. split.
      * by rewrite (runEvents_tab_change h b steps _ s s1 Hred).
      * rewrite Hfinal, Hspent. lia.
Qed.

(** X7.  Dwell time is conserved when no TAB_CHANGE re-selects the tab
    that is active: from a freshly created session record, a run of
    TAB_CHANGE events in which no target repeats the target just before
    it, closed by FINALIZE_TAB_TIMES, returns a state whose recorded time
    over all tabs is the clock reading of the finalization minus that of
    the first TAB_CHANGE. *)
Theorem dwell_time_conservation h0 formFields tabIds h1 tab1 steps hT :
  noReselect (tab1 :: steps.*2) = true →
  ∃ s,
    runEvents (tabChanges ((h1, tab1) :: steps) ++ [(hT, FINALIZE_TAB_TIMES)])
      (createInitialAnalyticsState h0 formFields tabIds) = Returns s ∧
    totalSpent (tabs s) = date_now hT - date_now h1.
Proof.
  intros Hno.
  set (s0 := createInitialAnalyticsState h0 formFields tabIds).
  destruct (tab_change_records_other_tabs h1 s0 tab1) as (s1 & Hred & Hspent & _).
  assert (Hpend : pendingAt (date_now h1) (delete tab1 (tabs s0)) = 0).
  { rewrite pendingAt_active. unfold activeTabs.
    rewrite map_filter_delete.
    fold (activeTabs (tabs s0)). unfold s0. rewrite activeTabs_initial.
    rewrite delete_empty. apply mapSum_empty. }
  rewrite Hpend in Hspent.
  pose proof (totalSpent_initial h0 formFields tabIds) as Hzero.
  fold s0 in Hzero. rewrite Hzero in Hspent.
  destruct (conservation_from steps hT s1 tab1
              (enteredTab (date_now h1) (tabs s0 !! tab1)) (date_now h1))
    as (s & Hrun & Hfinal).
  - by apply activeTabs_tab_change.
  - reflexivity.
  - exact Hno.
  - exists s. split.
    + by rewrite (runEvents_tab_change h1 tab1 steps _ s0 s1 Hred).
    + rewrite Hfinal, Hspent. lia.
Qed.

Lemma dwell_time_conservation_witness :
  let steps := [ (at_time 5000, "payment"); (at_time 12000, "personal") ] in
  ∃ s,
    runEvents (tabChanges ((at_time 1000, "personal") :: steps)
               ++ [(at_time 20000, FINALIZE_TAB_TIMES)])
      (createInitialAnalyticsState (at_time 0) ["email"]
         (Some ["personal"; "payment"])) = Returns s ∧
    totalSpent (tabs s) = date_now (at_time 20000) - date_now (at_time 1000).
Proof.
  intros steps.
  apply (dwell_time_conservation (at_time 0) ["email"]
           (Some ["personal"; "payment"]) (at_time 1000) "personal" steps
           (at_time 20000)).
  vm_compute. reflexivity.
Defined.

(** ** Visits *)

Lemma visitsOf_finalizeAll tab now ts :
  visitsOf tab (finalizeAll now ts) = visitsOf tab ts.
Proof.
  unfold visitsOf. rewrite lookup_finalizeAll.
  destruct (ts !! tab) as [t|]; simpl; [|done].
  unfold finalizeTab. by destruct (lastVisitTime t).
Qed.

Lemma visitsOf_step h s a s' tab :
  a ≠ RESET_ANALYTICS →
  analyticsReducer h s a = Returns s' →
  visitsOf tab (tabs s')
  = visitsOf tab (tabs s) + (if decide (a = TAB_CHANGE tab) then 1 else 0).
Proof.
  intros Ha Hred. destruct (decide (a = TAB_CHANGE tab)) as [->|Hne].
  - rewrite (tab_change_tabs h s tab s' Hred).
    unfold visitsOf. rewrite lookup_insert_eq. reflexivity.
  - rewrite Z.add_0_r. destruct a; try done.
    + simpl in Hred. destruct (fields s !! field); [|discriminate].
      by injection Hred as <-.
    + rewrite (tab_change_tabs h s tab0 s' Hred).
      unfold visitsOf at 1. rewrite lookup_insert_ne by congruence.
      apply visitsOf_finalizeAll.
    + injection Hred as <-. apply visitsOf_finalizeAll.
    + injection Hred as <-. apply visitsOf_finalizeAll.
    + injection Hred as <-. apply visitsOf_finalizeAll.
    + by injection Hred as <-.
    + by injection Hred as <-.
Qed.

Lemma visitsOf_run tab evs s s' :
  Forall (λ e, e.2 ≠ RESET_ANALYTICS) evs →
  runEvents evs s = Returns s' →
  visitsOf tab (tabs s')
  = visitsOf tab (tabs s) + Z.of_nat (tabChangesTo tab evs).
Proof.
  intros Hno. revert s. induction Hno as [|[h a] evs Ha Hno IH]; intros s Hrun.
  - simpl in Hrun. injection Hrun as <-. unfold tabChangesTo. simpl. lia.
  - simpl in Hrun, Ha.
    destruct (analyticsReducer h s a) as [s1|e] eqn:Hred; [|discriminate].
    simpl in Hrun. rewrite (IH s1 Hrun), (visitsOf_step h s a s1 tab Ha Hred).
    unfold tabChangesTo. rewrite filter_cons. simpl.
    destruct (decide (a = TAB_CHANGE tab)); simpl; lia.
Qed.

(** X8.  In a run from a freshly created session record that contains no
    RESET_ANALYTICS, the [visits] of a tab is the number of TAB_CHANGE
    events of the run that target it (and a tab never targeted, if it
    exists, has 0 visits). *)
Theorem visits_count_tab_changes h0 formFields tabIds evs s tab :
  Forall (λ e, e.2 ≠ RESET_ANALYTICS) evs →
  runEvents evs (createInitialAnalyticsState h0 formFields tabIds) = Returns s →
  visitsOf tab (tabs s) = Z.of_nat (tabChangesTo tab evs).
Proof.
  intros Hno Hrun. rewrite (visitsOf_run tab evs _ s Hno Hrun).
  assert (visitsOf tab (tabs (createInitialAnalyticsState h0 formFields tabIds)) = 0)
    as ->; [|lia].
  unfold visitsOf. simpl.
  destruct tabIds as [ids|]; [|by rewrite lookup_empty].
  rewrite lookup_assignEach.
  destruct (decide (tab ∈ ids)); [done | by rewrite lookup_empty].
Qed.

Lemma visits_count_tab_changes_witness :
  let evs := [ (at_time 0, TAB_CHANGE "personal");
               (at_time 4000, TAB_CHANGE "payment");
               (at_time 5000, VALIDATION_ERROR "email" "Required");
               (at_time 9000, TAB_CHANGE "personal");
               (at_time 9500, TAB_CHANGE "personal") ] in
  let s := mkForm (uuidv4 (at_time 0)) 0 None None
             (<[ "email" := mkField "email" ["Required"] ]> ∅)
             (<[ "personal" := mkTab 3 4000 (Some 9500) (Some 9500) ]>
                (<[ "payment" := mkTab 1 5000 None (Some 4000) ]> ∅))
             false false 1 None in
  visitsOf "personal" (tabs s) = Z.of_nat (tabChangesTo "personal" evs).
Proof.
  intros evs s.
  apply (visits_count_tab_changes (at_time 0) ["email"] (Some ["personal"]) evs s).
  - repeat constructor; discriminate.
  - vm_compute. reflexivity.
Defined.

(** ** Recorded time as the clock advances *)

(** X9.  When no active tab was activated after the clock reading of the
    call, an action other than RESET_ANALYTICS keeps every tab and does not
    lower the [totalTimeSpent] of any. *)
Theorem recorded_time_never_decreases h s a s' k t :
  a ≠ RESET_ANALYTICS →
  map_Forall (λ _ x, (0 ≤ pendingOf (date_now h) x)%Z) (tabs s) →
  analyticsReducer h s a = Returns s' →
  tabs s !! k = Some t →
  ∃ t', tabs s' !! k = Some t' ∧ (totalTimeSpent t ≤ totalTimeSpent t')%Z.
Proof.
  intros Ha Hclock Hred Hk.
  assert (Hfin : (totalTimeSpent t ≤ totalTimeSpent (finalizeTab (date_now h) t))%Z).
  { specialize (Hclock k t Hk). simpl in Hclock.
    unfold finalizeTab, pendingOf in *.
    destruct (lastVisitTime t); simpl; lia. }
  assert (Hall : ∃ t', finalizeAll (date_now h) (tabs s) !! k = Some t' ∧
                       (totalTimeSpent t ≤ totalTimeSpent t')%Z).
  { rewrite lookup_finalizeAll, Hk. simpl. by eauto. }
  destruct a; try done.
  - simpl in Hred. destruct (fields s !! field); [|discriminate].
    injection Hred as <-. simpl. exists t. split; [done | lia].
  - rewrite (tab_change_tabs h s tab s' Hred).
    destruct (decide (k = tab)) as [->|Hne].
    + rewrite lookup_insert_eq. eexists. split; [reflexivity|].
      rewrite Hk. simpl. lia.
    + by rewrite lookup_insert_ne.
  - by injection Hred as <-.
  - by injection Hred as <-.
  - by injection Hred as <-.
  - injection Hred as <-. simpl. exists t. split; [done | lia].
  - injection Hred as <-. exists t. split; [done | lia].
Qed.

Lemma recorded_time_never_decreases_witness :
  let h := at_time 9000 in
  let t := mkTab 1 2000 (Some 5000) (Some 5000) in
  let s := mkForm "s" 0 None None ∅ (<[ "payment" := t ]> ∅)
             false false 0 None in
  let s' := mkForm "s" 0 (Some 9000) None ∅
              (<[ "payment" := mkTab 1 6000 None (Some 5000) ]> ∅)
              false true 0 None in
  ∃ t', tabs s' !! "payment" = Some t' ∧ (totalTimeSpent t ≤ totalTimeSpent t')%Z.
Proof.
  intros h t s s'.
  apply (recorded_time_never_decreases h s FORM_ABANDON s' "payment" t).
  - discriminate.
  - apply map_Forall_insert_2; [vm_compute; discriminate | apply map_Forall_empty].
  - vm_compute. reflexivity.
  - vm_compute. reflexivity.
Defined.

(** ** Actions that follow a terminal action *)

Lemma finalizeTab_finalizeTab now1 now2 t :
  finalizeTab now2 (finalizeTab now1 t) = finalizeTab now1 t.
Proof.
  unfold finalizeTab at 1. by rewrite finalizeTab_inactive.
Qed.

Lemma finalizeAll_finalizeAll now1 now2 ts :
  finalizeAll now2 (finalizeAll now1 ts) = finalizeAll now1 ts.
Proof.
  apply map_eq. intros k. rewrite !lookup_finalizeAll.
  destruct (ts !! k); simpl; [|done]. by rewrite finalizeTab_finalizeTab.
Qed.

(** X10.  The three actions that [exportAnalytics] dispatches after a
    successful request collapse: whatever the clock readings of the three
    reductions, FORM_SUBMIT, SET_EXPORT_REASON(submit), FINALIZE_TAB_TIMES
    gives the state that FORM_SUBMIT alone gives, and FORM_ABANDON,
    SET_EXPORT_REASON(reason), FINALIZE_TAB_TIMES gives the state of
    FORM_ABANDON with [exportReason] set to the reason. *)
Theorem export_dispatches_collapse h1 h2 h3 s reason :
  runEvents [ (h1, FORM_SUBMIT); (h2, SET_EXPORT_REASON (Some submit));
              (h3, FINALIZE_TAB_TIMES) ] s
    = analyticsReducer h1 s FORM_SUBMIT ∧
  runEvents [ (h1, FORM_ABANDON); (h2, SET_EXPORT_REASON (Some reason));
              (h3, FINALIZE_TAB_TIMES) ] s
    = bindO (analyticsReducer h1 s FORM_ABANDON)
        (λ s1, analyticsReducer h2 s1 (SET_EXPORT_REASON (Some reason))).
Proof.
  split; simpl; by rewrite finalizeAll_finalizeAll.
Qed.

(** * Further properties of the provider *)

Lemma exportAnalytics_ok_store captured reason now h p :
  ∃ s1,
    analyticsReducer h (analytics p)
      (match reason with submit => FORM_SUBMIT | _ => FORM_ABANDON end)
      = Returns s1 ∧
    exportAnalytics captured reason now true h p
    = Returns
        {| analytics :=
             match reason with
             | submit => s1
             | _ =>
                 {| sessionId := sessionId s1;
                    formStartTime := formStartTime s1;
                    formEndTime := formEndTime s1;
                    formCompletionTime := formCompletionTime s1;
                    fields := fields s1;
                    tabs := tabs s1;
                    formSubmitted := formSubmitted s1;
                    formAbandoned := formAbandoned s1;
                    validationErrorCount := validationErrorCount s1;
                    exportReason := Some reason |}
             end;
           formAlreadySubmitted :=
             match reason with
             | submit => true
             | _ => formAlreadySubmitted p
             end;
           delivered :=
             delivered p ++
               [ {| channel := AxiosPost;
                    payload := completeAnalytics captured reason now |} ] |}.
Proof.
  destruct reason; eexists; (split; [reflexivity|]);
    unfold exportAnalytics, dispatch; simpl;
    by rewrite finalizeAll_finalizeAll.
Qed.

(** X11.  After a successful export at the clock reading of the
    reduction, built from the current state, the store agrees with the
    record that was sent on [sessionId], [fields], [formEndTime],
    [exportReason], and on the [visits] and [totalTimeSpent] of every tab;
    for [submit] also on [formSubmitted] and [formCompletionTime], for the
    other reasons on both flags.  They differ on [lastVisitTime]: the store
    has [null] everywhere, the record sent keeps the value from before the
    export. *)
Theorem export_store_matches_payload reason h p :
  ∃ p',
    exportAnalytics (analytics p) reason (date_now h) true h p = Returns p' ∧
    let sent := completeAnalytics (analytics p) reason (date_now h) in
    let kept := analytics p' in
    sessionId kept = sessionId sent ∧
    fields kept = fields sent ∧
    formEndTime kept = formEndTime sent ∧
    exportReason kept = exportReason sent ∧
    (∀ k, visits <$> tabs kept !! k = visits <$> tabs sent !! k) ∧
    (∀ k, totalTimeSpent <$> tabs kept !! k
          = totalTimeSpent <$> tabs sent !! k) ∧
    (∀ k t, tabs kept !! k = Some t → lastVisitTime t = None) ∧
    (∀ k, lastVisitTime <$> tabs sent !! k
          = lastVisitTime <$> tabs (analytics p) !! k) ∧
    match reason with
    | submit =>
        formSubmitted kept = formSubmitted sent ∧
        formCompletionTime kept = formCompletionTime sent
    | _ =>
        formSubmitted kept = formSubmitted sent ∧
        formAbandoned kept = formAbandoned sent
    end.
Proof.
  destruct (exportAnalytics_ok_store (analytics p) reason (date_now h) h p)
    as (s1 & Hred & Hexp).
  eexists. split; [exact Hexp|].
  assert (Htabs : ∀ k,
    finalizeAll (date_now h) (tabs (analytics p)) !! k
    = finalizeTab (date_now h) <$> tabs (analytics p) !! k)
    by (intros; apply lookup_finalizeAll).
  assert (Hclean : ∀ k,
    (cleanTab (date_now h) <$> tabs (analytics p)) !! k
    = cleanTab (date_now h) <$> tabs (analytics p) !! k)
    by (intros; apply lookup_fmap).
  destruct reason; simpl in Hred; injection Hred as <-; simpl;
    (repeat split; try reflexivity;
     [ intros k; rewrite Htabs, Hclean;
       destruct (tabs (analytics p) !! k) as [t|]; simpl; [|done];
       unfold finalizeTab; by destruct (lastVisitTime t)
     | intros k; rewrite Htabs, Hclean;
       destruct (tabs (analytics p) !! k) as [t|]; simpl; [|done];
       unfold finalizeTab; by destruct (lastVisitTime t)
     | intros k t; rewrite Htabs;
       destruct (tabs (analytics p) !! k) as [t0|]; simpl; [|done];
       intros [= <-]; apply finalizeTab_inactive
     | intros k; rewrite Hclean;
       by destruct (tabs (analytics p) !! k) ]).
Qed.

(** X12.  The flag set by a successful submit export does not survive the
    effect that follows the change of [analytics]: right after the export
    the unload listener sends nothing, but once the effect has run on a
    session with an identifier, the listener sends its beacon, so the
    session is delivered a second time. *)
Theorem submit_guard_cleared_by_effect captured captured' now h p :
  sessionId (analytics p) ≠ "" →
  ∃ p',
    exportAnalytics captured submit now true h p = Returns p' ∧
    formAlreadySubmitted p' = true ∧
    delivered (handleUnload captured' p') = delivered p' ∧
    formAlreadySubmitted (sessionEffect p') = false ∧
    delivered (handleUnload captured' (sessionEffect p'))
    = (delivered p
       ++ [ {| channel := AxiosPost;
               payload := completeAnalytics captured submit now |};
            {| channel := SendBeacon; payload := unloadBody captured' |} ])%list.
Proof.
  intros Hid.
  destruct (exportAnalytics_ok_store captured submit now h p)
    as (s1 & Hred & Hexp).
  eexists. split; [exact Hexp|].
  simpl in Hred. injection Hred as <-.
  split; [reflexivity|]. split; [reflexivity|].
  unfold sessionEffect, handleUnload. simpl.
  destruct (decide (sessionId (analytics p) = "")) as [Heq|_]; [done|].
  simpl. split; [reflexivity|]. by rewrite <-app_assoc.
Qed.

Lemma submit_guard_cleared_by_effect_witness :
  let p := mount (at_time 0) ["email"] None in
  let captured := analytics p in
  let h := at_time 45000 in
  ∃ p',
    exportAnalytics captured submit 45000 true h p = Returns p' ∧
    formAlreadySubmitted p' = true ∧
    delivered (handleUnload captured p') = delivered p' ∧
    formAlreadySubmitted (sessionEffect p') = false ∧
    delivered (handleUnload captured (sessionEffect p'))
    = (delivered p
       ++ [ {| channel := AxiosPost;
               payload := completeAnalytics captured submit 45000 |};
            {| channel := SendBeacon; payload := unloadBody captured |} ])%list.
Proof.
  intros p captured h.
  apply (submit_guard_cleared_by_effect captured captured 45000 h p).
  vm_compute. discriminate.
Defined.

(** X13.  [trackFormSubmit] navigates to the redirect path in every case,
    also when the request failed.  In that case the record, which says
    [formSubmitted: true], goes to the download link, while the store and
    the [formAlreadySubmitted] flag stay as they were. *)
Theorem trackFormSubmit_always_navigates captured redirectUrl now postOk h p :
  ∃ p',
    trackFormSubmit captured redirectUrl now postOk h p
      = (p', Some ("/" ++ redirectUrl)) ∧
    length (delivered p') = S (length (delivered p)) ∧
    (postOk = false →
       analytics p' = analytics p ∧
       formAlreadySubmitted p' = formAlreadySubmitted p ∧
       ∃ sent,
         delivered p'
           = (delivered p ++ [ {| channel := DownloadLink; payload := sent |} ])%list ∧
         formSubmitted sent = true).
Proof.
  unfold trackFormSubmit. destruct postOk.
  - destruct (exportAnalytics_ok_store captured submit now h p)
      as (s1 & _ & ->).
    eexists. split; [reflexivity|]. simpl.
    split; [|discriminate]. rewrite length_app. simpl. lia.
  - simpl. eexists. split; [reflexivity|]. simpl.
    split; [rewrite length_app; simpl; lia|].
    intros _. repeat split. by eexists.
Qed.

(** * Properties of [getAnalyticsFormFields] *)

Lemma objectKeys_truthy v : truthy v = true → ∃ ks, objectKeys v = Returns ks.
Proof. destruct v; simpl; try discriminate; by eauto. Qed.

(** X14.  [getAnalyticsFormFields] never throws: each [Object.keys] is
    reached only with a value that has keys.  For a schema that is not an
    object (a primitive value, [null], [undefined]) the result is the empty
    list. *)
Theorem getAnalyticsFormFields_returns formSchema :
  ∃ names,
    getAnalyticsFormFields formSchema = Returns names ∧
    (isNonNullObject formSchema = false → names = []).
Proof.
  unfold getAnalyticsFormFields.
  destruct (truthy (optGet formSchema "shape")) eqn:Hshape.
  - destruct (objectKeys_truthy _ Hshape) as [ks Hks].
    exists ks. split; [exact Hks|].
    intros Hobj. destruct formSchema; simpl in *; discriminate.
  - destruct (truthy (optGet (optGet (optGet (optGet formSchema "_def") "schema")
                                "_def") "shape")) eqn:Hnested.
    + destruct (objectKeys_truthy _ Hnested) as [ks Hks].
      exists ks. split; [exact Hks|].
      intros Hobj. destruct formSchema; simpl in *; discriminate.
    + destruct formSchema; simpl; eexists; (split; [reflexivity|]);
        first [ reflexivity | discriminate ].
Qed.

(** X15.  A truthy [shape] decides alone: the result is [Object.keys] of
    that value, whatever else the schema holds, its own keys included.  A
    plain object with a field called [shape] that holds a non-empty value
    is therefore read through that field. *)
Theorem shape_takes_precedence get ownKeys shape :
  get !! "shape" = Some shape →
  truthy shape = true →
  getAnalyticsFormFields (JsObject get ownKeys) = objectKeys shape.
Proof.
  intros Hget Htruthy. unfold getAnalyticsFormFields. simpl.
  rewrite Hget. simpl. by rewrite Htruthy.
Qed.

Lemma shape_takes_precedence_witness :
  let shape := JsString "round" in
  let get := <[ "shape" := shape ]> (<[ "size" := JsNumber 3 ]> ∅) in
  getAnalyticsFormFields (JsObject get ["shape"; "size"]) = objectKeys shape.
Proof.
  intros shape get.
  apply (shape_takes_precedence get ["shape"; "size"] shape).
  - vm_compute. reflexivity.
  - vm_compute. reflexivity.
Defined.

(** X16.  On a freshly created session record, VALIDATION_ERROR returns
    exactly for the names in the field list given at creation: for such a
    name the message is recorded and the counter becomes 1, for any other
    name the reducer throws. *)
Theorem fresh_record_tracks_listed_fields h formFields tabIds h' name error :
  let s := createInitialAnalyticsState h formFields tabIds in
  (name ∈ formFields →
     ∃ s', analyticsReducer h' s (VALIDATION_ERROR name error) = Returns s' ∧
           fields s' !! name = Some (mkField name [error]) ∧
           validationErrorCount s' = 1) ∧
  (name ∉ formFields →
     analyticsReducer h' s (VALIDATION_ERROR name error) = Throws TypeError).
Proof.
  intros s.
  assert (Hlook : fields s !! name
                  = if decide (name ∈ formFields)
                    then Some (createInitialFieldAnalytics name) else None).
  { unfold s. simpl. rewrite lookup_assignEach.
    destruct (decide (name ∈ formFields)); [done | apply lookup_empty]. }
  split; intros Hin.
  - rewrite decide_True in Hlook by exact Hin.
    destruct (validation_error_spec h' s name error _ Hlook)
      as (s' & Hred & Hfields & Hcount & _).
    exists s'. split; [exact Hred|].
    rewrite Hfields, Hcount. simpl.
    rewrite lookup_insert_eq. split; reflexivity.
  - rewrite decide_False in Hlook by exact Hin.
    unfold analyticsReducer. by rewrite Hlook.
Qed.

(** * Timers: the idle timer and the confirmation timer of a field *)

Section timer_slot.
Context (task : TimerTask) (ref : option positive) (tm : Timers).
Hypothesis Hok : slotOk task ref tm.

Let cleared : Timers :=
  match ref with
  | Some handle => clearTimeout handle tm
  | None => tm
  end.

Lemma cleared_nextHandle : nextHandle cleared = nextHandle tm.
Proof. unfold cleared. by destruct ref. Qed.

Lemma cleared_lookup_Some k due task' :
  scheduled cleared !! k = Some (due, task') ↔
  scheduled tm !! k = Some (due, task') ∧ task' ≠ task.
Proof.
  destruct Hok as (_ & Hown & Hmine). unfold cleared. split.
  - intros Hk. destruct ref as [handle|]; simpl in Hk.
    + apply lookup_delete_Some in Hk as [Hne Hk]. split; [exact Hk|].
      intros ->. apply Hown in Hk. congruence.
    + split; [exact Hk|]. intros ->. apply Hown in Hk. discriminate.
  - intros [Hk Hne]. destruct ref as [handle|]; simpl; [|exact Hk].
    apply lookup_delete_Some. split; [|exact Hk].
    intros ->. apply Hne. by eapply Hmine.
Qed.

Lemma cleared_lookup_next : scheduled cleared !! nextHandle tm = None.
Proof.
  destruct Hok as (Hwf & _).
  destruct (scheduled cleared !! nextHandle tm) as [[due task']|] eqn:Hk; [|done].
  apply cleared_lookup_Some in Hk as [Hk _].
  assert (nextHandle tm < nextHandle tm)%positive by (apply Hwf; by eexists).
  lia.
Qed.

Lemma cleared_slotOk : slotOk task None cleared.
Proof.
  destruct Hok as (Hwf & _). split; [|split].
  - intros k [[due task'] Hk]. rewrite cleared_nextHandle.
    apply cleared_lookup_Some in Hk as [Hk _]. apply Hwf. by eexists.
  - intros k due Hk. apply cleared_lookup_Some in Hk as [_ Hne]. done.
  - intros k due task' [=].
Qed.

Lemma cleared_tasksOf_own : tasksOf task cleared = ∅.
Proof.
  apply map_empty. intros k. apply map_lookup_filter_None. right.
  intros [due task'] Hk. simpl. intros ->.
  apply cleared_lookup_Some in Hk as [_ Hne]. done.
Qed.

Lemma cleared_tasksOf_other task' :
  task' ≠ task → tasksOf task' cleared = tasksOf task' tm.
Proof.
  intros Hne. apply map_eq. intros k. apply option_eq. intros [due task''].
  unfold tasksOf. rewrite !map_lookup_filter_Some. simpl.
  rewrite cleared_lookup_Some. split.
  - intros [[Hk _] ->]. by split.
  - intros [Hk ->]. by split.
Qed.

Lemma rearm_slotOk delay now :
  slotOk task (Some (setTimeout task delay now cleared).1)
    (setTimeout task delay now cleared).2.
Proof.
  destruct Hok as (Hwf & _). unfold setTimeout. simpl.
  rewrite cleared_nextHandle. split; [|split].
  - intros k [x Hk]. simpl in *.
    destruct (decide (k = nextHandle tm)) as [->|Hne]; [lia|].
    rewrite lookup_insert_ne in Hk by done. destruct x as [due task'].
    apply cleared_lookup_Some in Hk as [Hk _].
    assert (k < nextHandle tm)%positive by (apply Hwf; by eexists). lia.
  - intros k due Hk. simpl in *.
    destruct (decide (k = nextHandle tm)) as [->|Hne]; [done|].
    rewrite lookup_insert_ne in Hk by done.
    apply cleared_lookup_Some in Hk as [_ Hk]. done.
  - intros k due task' [= <-]. simpl.
    rewrite lookup_insert_eq. by intros [= _ <-].
Qed.

Lemma rearm_tasksOf_own delay now :
  tasksOf task (setTimeout task delay now cleared).2
  = {[ (setTimeout task delay now cleared).1 := (now + delay, task) ]}.
Proof.
  unfold setTimeout, tasksOf. simpl. rewrite cleared_nextHandle.
  rewrite map_filter_insert_True by done.
  fold (tasksOf task cleared). rewrite cleared_tasksOf_own.
  apply insert_empty.
Qed.

Lemma rearm_tasksOf_other delay now task' :
  task' ≠ task →
  tasksOf task' (setTimeout task delay now cleared).2 = tasksOf task' tm.
Proof.
  intros Hne. unfold setTimeout, tasksOf. simpl. rewrite cleared_nextHandle.
  rewrite map_filter_insert_False by (simpl; congruence).
  rewrite delete_id by apply cleared_lookup_next.
  by apply cleared_tasksOf_other.
Qed.
End timer_slot.

Lemma slotOk_no_timers task next : slotOk task None (mkTimers next ∅).
Proof.
  split; [|split].
  - intros k [x Hk]. simpl in Hk. by rewrite lookup_empty in Hk.
  - intros k due Hk. simpl in Hk. by rewrite lookup_empty in Hk.
  - intros k due task' [=].
Qed.

(** X17.  Debounce of the idle timer.  On a provider that owns its idle
    timer, [resetIdleTimer] (run at mount and on every mouse move, key
    press, scroll and click) leaves exactly one idle timer pending, the one
    the ref holds, due 600000 ms after the call; the timers of other tasks
    and the provider state are untouched, and the provider still owns its
    timer. *)
Theorem idle_timer_debounce now sc :
  slotOk IdleExpiry (idleTimerRef sc) (timers sc) →
  let sc' := resetIdleTimer now sc in
  slotOk IdleExpiry (idleTimerRef sc') (timers sc') ∧
  (∃ handle,
     idleTimerRef sc' = Some handle ∧
     tasksOf IdleExpiry (timers sc') = {[ handle := (now + 600000, IdleExpiry) ]}) ∧
  (∀ task, task ≠ IdleExpiry →
     tasksOf task (timers sc') = tasksOf task (timers sc)) ∧
  provider sc' = provider sc.
Proof.
  intros Hok sc'.
  split; [exact (rearm_slotOk IdleExpiry _ _ Hok IDLE_TIMEOUT now)|].
  split; [|split; [|reflexivity]].
  - eexists. split; [reflexivity|].
    exact (rearm_tasksOf_own IdleExpiry _ _ Hok IDLE_TIMEOUT now).
  - intros task Hne.
    exact (rearm_tasksOf_other IdleExpiry _ _ Hok IDLE_TIMEOUT now task Hne).
Qed.

Lemma idle_timer_debounce_witness :
  let sc := resetIdleTimer 0
              (mountScope (at_time 0) ["email"] None (mkTimers 1 ∅)) in
  let now := 42000 in
  let sc' := resetIdleTimer now sc in
  slotOk IdleExpiry (idleTimerRef sc') (timers sc') ∧
  (∃ handle,
     idleTimerRef sc' = Some handle ∧
     tasksOf IdleExpiry (timers sc') = {[ handle := (now + 600000, IdleExpiry) ]}) ∧
  (∀ task, task ≠ IdleExpiry →
     tasksOf task (timers sc') = tasksOf task (timers sc)) ∧
  provider sc' = provider sc.
Proof.
  intros sc now.
  apply (idle_timer_debounce now sc).
  apply (rearm_slotOk IdleExpiry None (mkTimers 1 ∅)
           (slotOk_no_timers IdleExpiry 1) IDLE_TIMEOUT 0).
Defined.

(** X18.  The confirmation timer of a field.  When the effect of a tracked
    field runs again (cleanup, then body) on a field that owns its timer,
    the pending report of the field is cancelled; if the field has an error
    at that moment, exactly one new timer is pending, due 60000 ms after
    the run, and if it has none, no timer of the field is pending.  Timers
    of other tasks are untouched, and the field still owns its timer. *)
Theorem field_effect_rearms name errors now ref tm :
  slotOk (ConfirmError name) ref tm →
  let after := fieldEffectRerun name errors now ref tm in
  slotOk (ConfirmError name) after.1 after.2 ∧
  tasksOf (ConfirmError name) after.2 =
    match errors !! name, after.1 with
    | Some _, Some handle => {[ handle := (now + 60000, ConfirmError name) ]}
    | _, _ => ∅
    end ∧
  (is_Some after.1 ↔ is_Some (errors !! name)) ∧
  (∀ task, task ≠ ConfirmError name → tasksOf task after.2 = tasksOf task tm).
Proof.
  intros Hok after.
  pose proof (cleared_slotOk _ _ _ Hok) as Hok1.
  assert (Hclear : fieldEffectCleanup ref tm
                   = match ref with
                     | Some handle => clearTimeout handle tm
                     | None => tm
                     end) by reflexivity.
  assert (Htwice : match ref with
                   | Some handle => clearTimeout handle (fieldEffectCleanup ref tm)
                   | None => fieldEffectCleanup ref tm
                   end = fieldEffectCleanup ref tm).
  { destruct ref as [handle|]; simpl; [|done].
    unfold clearTimeout. simpl. f_equal. by rewrite delete_delete_eq. }
  unfold after, fieldEffectRerun, fieldEffect. rewrite Htwice, Hclear.
  destruct (errors !! name) as [message|] eqn:Herr; simpl.
  - split;
      [exact (rearm_slotOk _ _ _ Hok ERROR_PERSISTENCE_THRESHOLD now)|].
    split;
      [exact (rearm_tasksOf_own _ _ _ Hok ERROR_PERSISTENCE_THRESHOLD now)|].
    split; [split; by eauto|].
    intros task Hne.
    exact (rearm_tasksOf_other _ _ _ Hok ERROR_PERSISTENCE_THRESHOLD now task Hne).
  - split; [exact Hok1|].
    split; [exact (cleared_tasksOf_own _ _ _ Hok)|].
    split; [split; by intros [? [=]]|].
    intros task Hne. exact (cleared_tasksOf_other _ _ _ Hok task Hne).
Qed.

Lemma field_effect_rearms_witness :
  let name := "email" in
  let shown : gmap string string := <[ "email" := "Invalid email address" ]> ∅ in
  let first := fieldEffectRerun name shown 5000 None (mkTimers 1 ∅) in
  let ref := first.1 in
  let tm := first.2 in
  let errors : gmap string string := ∅ in
  let now := 20000 in
  let after := fieldEffectRerun name errors now ref tm in
  slotOk (ConfirmError name) after.1 after.2 ∧
  tasksOf (ConfirmError name) after.2 =
    match errors !! name, after.1 with
    | Some _, Some handle => {[ handle := (now + 60000, ConfirmError name) ]}
    | _, _ => ∅
    end ∧
  (is_Some after.1 ↔ is_Some (errors !! name)) ∧
  (∀ task, task ≠ ConfirmError name → tasksOf task after.2 = tasksOf task tm).
Proof.
  intros name shown first ref tm errors now.
  apply (field_effect_rearms name errors now ref tm).
  exact (proj1 (field_effect_rearms name shown 5000 None (mkTimers 1 ∅)
                  (slotOk_no_timers (ConfirmError name) 1))).
Defined.

(** * The mounted provider *)

Lemma exportAnalytics_returns captured reason now postOk h p :
  ∃ p',
    exportAnalytics captured reason now postOk h p = Returns p' ∧
    delivered p' =
      (delivered p ++
         [ {| channel := if postOk then AxiosPost else DownloadLink;
              payload := completeAnalytics captured reason now |} ])%list.
Proof.
  destruct postOk.
  - destruct (exportAnalytics_ok_store captured reason now h p)
      as (s1 & _ & ->). by eexists.
  - by eexists.
Qed.

Lemma runScope_firstRender evs sc sc' :
  runScope evs sc = Returns sc' → firstRender sc' = firstRender sc.
Proof.
  revert sc. induction evs as [|ev evs IH]; intros sc Hrun; simpl in Hrun.
  - by injection Hrun as <-.
  - destruct (scopeStep ev sc) as [sc1|e] eqn:Hstep; [|discriminate].
    simpl in Hrun. rewrite (IH sc1 Hrun).
    destruct ev; simpl in Hstep.
    + by injection Hstep as <-.
    + destruct (dispatch h a (provider sc)); [|discriminate].
      by injection Hstep as <-.
    + destruct (exportAnalytics _ reason now postOk h (provider sc));
        [|discriminate].
      by injection Hstep as <-.
Qed.

(** X19.  The record sent when the idle timer expires is built from the
    state of the first render, not from the current one: whatever has been
    tracked, dispatched or exported since the provider was mounted, the
    record has [validationErrorCount] 0, no message on any field, and 0
    [visits] and 0 [totalTimeSpent] on every tab. *)
Theorem idle_export_sends_first_render h0 formFields tabIds tm evs sc now postOk h :
  runScope evs (mountScope h0 formFields tabIds tm) = Returns sc →
  ∃ sc' sent,
    idleExpired now postOk h sc = Returns sc' ∧
    delivered (provider sc') =
      (delivered (provider sc) ++
         [ {| channel := if postOk then AxiosPost else DownloadLink;
              payload := sent |} ])%list ∧
    sent = completeAnalytics
             (createInitialAnalyticsState h0 formFields
                (Some (normalizedTabs tabIds))) idle now ∧
    validationErrorCount sent = 0 ∧
    (∀ k f, fields sent !! k = Some f → validationErrors f = []) ∧
    (∀ k t, tabs sent !! k = Some t → visits t = 0 ∧ totalTimeSpent t = 0).
Proof.
  intros Hrun. apply runScope_firstRender in Hrun. simpl in Hrun.
  unfold idleExpired. rewrite Hrun.
  destruct (exportAnalytics_returns
              (createInitialAnalyticsState h0 formFields
                 (Some (normalizedTabs tabIds))) idle now postOk h (provider sc))
    as (p' & -> & Hdel).
  eexists _, _. split; [reflexivity|]. split; [exact Hdel|].
  split; [reflexivity|]. split; [reflexivity|]. split.
  - intros k f. simpl. rewrite lookup_assignEach.
    destruct (decide (k ∈ formFields)); [|by rewrite lookup_empty].
    by intros [= <-].
  - intros k t. simpl. rewrite lookup_fmap, lookup_assignEach.
    destruct (decide (k ∈ normalizedTabs tabIds)); simpl;
      [|by rewrite lookup_empty].
    by intros [= <-].
Qed.

Lemma idle_export_sends_first_render_witness :
  let h0 := at_time 0 in
  let tm := mkTimers 1 ∅ in
  let evs := [ Activity 1000;
               Dispatched (at_time 2000) (TAB_CHANGE "default");
               Dispatched (at_time 70000)
                 (VALIDATION_ERROR "email" "Invalid email address") ] in
  let s := mkForm (uuidv4 h0) 0 None None
             (<[ "email" := mkField "email" ["Invalid email address"] ]> ∅)
             (<[ "default" := mkTab 1 0 (Some 2000) (Some 2000) ]> ∅)
             false false 1 None in
  let sc := mkScope (mkProvider s false [])
              (createInitialAnalyticsState h0 ["email"] (Some ["default"]))
              (Some 1%positive)
              (mkTimers 2 (<[ 1%positive := (601000, IdleExpiry) ]> ∅)) in
  let now := 601000 in
  let h := at_time 601050 in
  ∃ sc' sent,
    idleExpired now true h sc = Returns sc' ∧
    delivered (provider sc') =
      (delivered (provider sc) ++
         [ {| channel := AxiosPost; payload := sent |} ])%list ∧
    sent = completeAnalytics
             (createInitialAnalyticsState h0 ["email"]
                (Some (normalizedTabs None))) idle now ∧
    validationErrorCount sent = 0 ∧
    (∀ k f, fields sent !! k = Some f → validationErrors f = []) ∧
    (∀ k t, tabs sent !! k = Some t → visits t = 0 ∧ totalTimeSpent t = 0).
Proof.
  intros h0 tm evs s sc now h.
  apply (idle_export_sends_first_render h0 ["email"] None tm evs sc now true h).
  vm_compute. reflexivity.
Defined.

